(** * Callbacks of the training loop (torchy_baselines/common/callbacks.py)

    A shallow embedding of the callback classes and of their composition:
    [BaseCallback], [EventCallback], [CallbackList], [CheckpointCallback],
    [ConvertCallback], [EvalCallback], [StopTrainingOnRewardThreshold] and
    [EveryNTimesteps].

    Modelling decisions.
    - A callback object is a value made of the fields of [BaseCallback] and
      of the part its class adds ([kind]).  A container owns its children:
      every object occurs at one place of the tree.
    - Python exceptions are the [Raise] results of the [result] monad.  An
      exception ends the training run, so the state it leaves behind is not
      kept.
    - The trainer, the file system and the console are the [world]: what the
      callbacks read of the trainer, and the [trace] of the requests they
      issue ([model.save], [os.makedirs], [np.savez], [print], ...).
    - [self.parent] is set by [EventCallback.__init__] on the wrapped child
      and nowhere else, so the parent of an owned child is its wrapper: the
      wrapper hands its child a [parent_view] of itself.
    - Python floats are IEEE 754 values, [spec_float] with the comparisons
      of the Standard Library ([SFltb] is [<]).
    - What lives outside this file ([evaluate_policy], [np.mean], [np.std],
      [os.path.dirname]) is a parameter of the development. *)

From Stdlib Require Import ZArith List String Ascii Bool Lia.
From Stdlib Require Import SpecFloat DecimalString.
Import ListNotations.
Open Scope Z_scope.

(** ** Exceptions and results *)

Inductive exn : Type :=
| AssertionError
| AttributeError
| TypeError
| ZeroDivisionError
| OtherError (msg : string).

Inductive result (A : Type) : Type :=
| Ok (a : A)
| Raise (e : exn).

Arguments Ok {A} a.
Arguments Raise {A} e.

Definition bind {A B : Type} (r : result A) (k : A -> result B) : result B :=
  match r with
  | Ok a => k a
  | Raise e => Raise e
  end.

Notation "x <- e ;; k" := (bind e (fun x => k))
  (at level 61, e at next level, right associativity).
Notation "' pat <- e ;; k" := (bind e (fun x => match x with pat => k end))
  (at level 61, pat pattern, e at next level, right associativity).

(** [a % b] on Python integers: the sign follows the divisor, and a zero
    divisor raises. *)
Definition py_mod (a b : Z) : result Z :=
  if b =? 0 then Raise ZeroDivisionError else Ok (a mod b).

(** [str(n)] for an integer, as an f-string prints it. *)
Definition str_int (n : Z) : string := NilZero.string_of_int (Z.to_int n).

(** ** Paths: [os.path.join] with two arguments (posixpath) *)

Definition startswith_sep (s : string) : bool :=
  match s with
  | String c _ => Ascii.eqb c "/"%char
  | EmptyString => false
  end.

Fixpoint endswith_sep (s : string) : bool :=
  match s with
  | EmptyString => false
  | String c EmptyString => Ascii.eqb c "/"%char
  | String _ rest => endswith_sep rest
  end.

Definition os_path_join (a b : string) : string :=
  if startswith_sep b then b
  else if (String.length a =? 0)%nat || endswith_sep a then (a ++ b)%string
  else (a ++ "/" ++ b)%string.

(** ** The world around the callbacks *)

Definition float : Type := spec_float.

Definition model_ref := nat.
Definition env_ref := nat.
Definition logger_ref := nat.
Definition dict_ref := nat.

(** The evaluation environment: a plain [gym.Env], or a [VecEnv] with its
    number of parallel environments. *)
Inductive eval_environment : Type :=
| GymEnv (e : env_ref)
| VecEnv (e : env_ref) (num_envs : Z).

Inductive message : Type :=
| MsgSavingCheckpoint (path : string)
| MsgEval (num_timesteps : Z) (mean_reward std_reward : float)
| MsgNewBest
| MsgStopping (best_mean_reward reward_threshold : float).

Inductive event : Type :=
| Save (m : model_ref) (path : string)
| Makedirs (path : string)
| SyncEnvsNormalization (training_env : option env_ref) (eval_env : eval_environment)
| EvaluatePolicy (m : option model_ref) (eval_env : eval_environment)
    (n_eval_episodes : Z) (deterministic : bool)
| Savez (path : string) (timesteps : list Z) (results : list (list float))
| Print (msg : message)
| UserEvent (tag : string).

Record world : Type := mkWorld {
  num_timesteps_of : model_ref -> Z;        (* model.num_timesteps *)
  get_env : model_ref -> option env_ref;    (* model.get_env() *)
  Logger_CURRENT : option logger_ref;       (* Logger.CURRENT *)
  trace : list event                        (* requests issued so far, oldest first *)
}.

Definition emit_all (es : list event) (w : world) : world :=
  mkWorld (num_timesteps_of w) (get_env w) (Logger_CURRENT w) (trace w ++ es).

Definition emit (e : event) (w : world) : world := emit_all [e] w.

Definition emit_if (c : bool) (e : event) (w : world) : world :=
  if c then emit e w else w.

(** ** BaseCallback *)

Record BaseCallback : Type := mkBase {
  model : option model_ref;
  training_env : option env_ref;
  n_calls : Z;
  num_timesteps : Z;
  verbose : Z;
  locals : option dict_ref;
  globals : option dict_ref;
  logger : option logger_ref
}.

(** [BaseCallback.__init__] *)
Definition BaseCallback_init (verbose : Z) : BaseCallback :=
  mkBase None None 0 0 verbose None None None.

(** The field assignments of [BaseCallback.init_callback]. *)
Definition bind_model (b : BaseCallback) (m : model_ref) (w : world) : BaseCallback :=
  mkBase (Some m) (get_env w m) (n_calls b) (num_timesteps b) (verbose b)
         (locals b) (globals b) (Logger_CURRENT w).

(** The field assignments of [BaseCallback.on_training_start]. *)
Definition bind_locals (b : BaseCallback) (locals_ globals_ : dict_ref) : BaseCallback :=
  mkBase (model b) (training_env b) (n_calls b) (num_timesteps b) (verbose b)
         (Some locals_) (Some globals_) (logger b).

(** The two counter updates at the head of [BaseCallback.__call__]:
    [self.model.num_timesteps] needs a model. *)
Definition tick (b : BaseCallback) (w : world) : result BaseCallback :=
  match model b with
  | None => Raise AttributeError
  | Some m =>
      Ok (mkBase (model b) (training_env b) (n_calls b + 1) (num_timesteps_of w m + 1)
                 (verbose b) (locals b) (globals b) (logger b))
  end.

(** What a child reads through [self.parent]. *)
Inductive parent_view : Type :=
| NoParent                                   (* self.parent is None *)
| ParentEval (best_mean_reward : float)      (* the parent is an EvalCallback *)
| ParentEveryN.                              (* the parent is an EveryNTimesteps *)

(** ** The classes *)

(** The collaborators outside this file, and the type of the private state
    of the callbacks a user writes. *)
Class Collaborators : Type := {
  user_state : Type;
  evaluate_policy :
    world -> option model_ref -> eval_environment -> Z -> bool -> result (list float);
  np_mean : list float -> float;
  np_std : list float -> float;
  os_path_dirname : string -> string
}.

Section Callbacks.

Context {E : Collaborators}.

(** A direct subclass of [BaseCallback] written by a user: the extension
    points it overrides.  They read the base fields and the world, keep a
    state of their own and issue requests. *)
Record overrides : Type := mkOverrides {
  user_init_callback : BaseCallback -> user_state -> world -> result (user_state * list event);
  user_on_training_start :
    BaseCallback -> user_state -> world -> result (user_state * list event);
  user_on_rollout_start :
    BaseCallback -> user_state -> world -> result (user_state * list event);
  user_on_step :
    BaseCallback -> user_state -> world -> result (bool * user_state * list event);
  user_on_training_end :
    BaseCallback -> user_state -> world -> result (user_state * list event);
  user_on_rollout_end :
    BaseCallback -> user_state -> world -> result (user_state * list event)
}.

(** The old-style functional callback that [ConvertCallback] wraps. *)
Definition functional_callback : Type :=
  world -> option dict_ref -> option dict_ref -> result (bool * list event).

(** The fields [EvalCallback.__init__] adds (the child is in [kind]). *)
Record EvalFields : Type := mkEval {
  n_eval_episodes : Z;
  eval_freq : Z;
  best_mean_reward : float;
  deterministic : bool;
  eval_env : eval_environment;
  best_model_save_path : option string;
  log_path : option string;
  evaluations_results : list (list float);
  evaluations_timesteps : list Z
}.

Definition set_best_mean_reward (f : EvalFields) (r : float) : EvalFields :=
  mkEval (n_eval_episodes f) (eval_freq f) r (deterministic f) (eval_env f)
         (best_model_save_path f) (log_path f)
         (evaluations_results f) (evaluations_timesteps f).

Definition append_evaluation (f : EvalFields) (t : Z) (rs : list float) : EvalFields :=
  mkEval (n_eval_episodes f) (eval_freq f) (best_mean_reward f) (deterministic f)
         (eval_env f) (best_model_save_path f) (log_path f)
         (evaluations_results f ++ [rs]) (evaluations_timesteps f ++ [t]).

(** What each class adds to [BaseCallback]; [C] is the type of a child. *)
Inductive kind (C : Type) : Type :=
| CallbackList (callbacks : list C)
| CheckpointCallback (save_freq : Z) (save_path : option string) (name_prefix : string)
| ConvertCallback (callback : option functional_callback)
| EvalCallback (callback : option C) (fields : EvalFields)
| StopTrainingOnRewardThreshold (reward_threshold : float)
| EveryNTimesteps (callback : option C) (n_steps : Z) (last_time_trigger : Z)
| UserCallback (methods : overrides) (state : user_state).

Arguments CallbackList {C} callbacks.
Arguments CheckpointCallback {C} save_freq save_path name_prefix.
Arguments ConvertCallback {C} callback.
Arguments EvalCallback {C} callback fields.
Arguments StopTrainingOnRewardThreshold {C} reward_threshold.
Arguments EveryNTimesteps {C} callback n_steps last_time_trigger.
Arguments UserCallback {C} methods state.

#[warnings="-register-all"]
Inductive callback : Type :=
| Hook (base : BaseCallback) (k : kind callback).

Definition base_of (cb : callback) : BaseCallback :=
  match cb with Hook b _ => b end.

Definition kind_of (cb : callback) : kind callback :=
  match cb with Hook _ k => k end.

(** *** Constructors *)

Definition CallbackList_init (callbacks : list callback) : callback :=
  Hook (BaseCallback_init 0) (CallbackList callbacks).

Definition CheckpointCallback_init (save_freq : Z) (save_path : option string)
    (name_prefix : string) (verbose : Z) : callback :=
  Hook (BaseCallback_init verbose) (CheckpointCallback save_freq save_path name_prefix).

Definition ConvertCallback_init (f : option functional_callback) (verbose : Z) : callback :=
  Hook (BaseCallback_init verbose) (ConvertCallback f).

(** [-np.inf] *)
Definition neg_inf : float := S754_infinity true.

(** [EvalCallback.__init__]: a [VecEnv] must hold exactly one environment. *)
Definition EvalCallback_init (eval_env : eval_environment)
    (callback_on_new_best : option callback) (n_eval_episodes eval_freq : Z)
    (log_path best_model_save_path : option string) (deterministic : bool)
    (verbose : Z) : result callback :=
  let ok := match eval_env with
            | VecEnv _ num_envs => num_envs =? 1
            | GymEnv _ => true
            end in
  if ok then
    Ok (Hook (BaseCallback_init verbose)
             (EvalCallback callback_on_new_best
                (mkEval n_eval_episodes eval_freq neg_inf deterministic eval_env
                        best_model_save_path log_path [] [])))
  else Raise AssertionError.

Definition StopTrainingOnRewardThreshold_init (reward_threshold : float) (verbose : Z)
    : callback :=
  Hook (BaseCallback_init verbose) (StopTrainingOnRewardThreshold reward_threshold).

Definition EveryNTimesteps_init (n_steps : Z) (child : option callback) : callback :=
  Hook (BaseCallback_init 0) (EveryNTimesteps child n_steps 0).

Definition UserCallback_init (methods : overrides) (state : user_state) (verbose : Z) : callback :=
  Hook (BaseCallback_init verbose) (UserCallback methods state).

(** *** [_on_step], class by class

    [C] is the type of the children and [step] is [__call__] on a child,
    given what the child sees as its parent. *)

Section OnStep.

Variable C : Type.
Variable step : parent_view -> C -> world -> result (C * world * bool).

(** [EventCallback._on_event] *)
Definition _on_event (pv : parent_view) (callback : option C) (w : world)
    : result (option C * world * bool) :=
  match callback with
  | Some c => '(c', w', r) <- step pv c w ;; Ok (Some c', w', r)
  | None => Ok (None, w, true)
  end.

(** The loop of [CallbackList._on_step]: [continue_training] is the value
    the loop variable holds on entry. *)
Fixpoint fire_all (callbacks : list C) (w : world) (continue_training : bool)
    : result (list C * world * bool) :=
  match callbacks with
  | [] => Ok ([], w, continue_training)
  | c :: rest =>
      '(c', w1, r) <- step NoParent c w ;;
      '(rest', w2, k) <- fire_all rest w1 (r && continue_training) ;;
      Ok (c' :: rest', w2, k)
  end.

Definition CallbackList_on_step (callbacks : list C) (w : world)
    : result (list C * world * bool) :=
  fire_all callbacks w true.

Definition CheckpointCallback_on_step (b : BaseCallback) (save_freq : Z)
    (save_path : option string) (name_prefix : string) (w : world)
    : result (world * bool) :=
  r <- py_mod (n_calls b) save_freq ;;
  if r =? 0 then
    dir <- match save_path with Some d => Ok d | None => Raise TypeError end ;;
    let path :=
      os_path_join dir (name_prefix ++ "_" ++ str_int (num_timesteps b) ++ "_steps")%string in
    m <- match model b with Some m => Ok m | None => Raise AttributeError end ;;
    let w1 := emit (Save m path) w in
    let w2 := emit_if (verbose b >? 1) (Print (MsgSavingCheckpoint path)) w1 in
    Ok (w2, true)
  else Ok (w, true).

Definition ConvertCallback_on_step (b : BaseCallback)
    (callback : option functional_callback) (w : world) : result (world * bool) :=
  match callback with
  | Some f => '(r, es) <- f w (locals b) (globals b) ;; Ok (emit_all es w, r)
  | None => Ok (w, true)
  end.

Definition EvalCallback_on_step (b : BaseCallback) (callback : option C)
    (f : EvalFields) (w : world) : result (option C * EvalFields * world * bool) :=
  r <- py_mod (n_calls b) (eval_freq f) ;;
  if r =? 0 then
    let w1 := emit (SyncEnvsNormalization (training_env b) (eval_env f)) w in
    episode_rewards <-
      evaluate_policy w1 (model b) (eval_env f) (n_eval_episodes f) (deterministic f) ;;
    let w2 :=
      emit (EvaluatePolicy (model b) (eval_env f) (n_eval_episodes f) (deterministic f)) w1 in
    let '(f1, w3) :=
      match log_path f with
      | Some p =>
          let f1 := append_evaluation f (num_timesteps b) episode_rewards in
          (f1, emit (Savez p (evaluations_timesteps f1) (evaluations_results f1)) w2)
      | None => (f, w2)
      end in
    let mean_reward := np_mean episode_rewards in
    let std_reward := np_std episode_rewards in
    let w4 :=
      emit_if (verbose b >? 0) (Print (MsgEval (num_timesteps b) mean_reward std_reward)) w3 in
    if SFltb (best_mean_reward f1) mean_reward then
      let w5 := emit_if (verbose b >? 0) (Print MsgNewBest) w4 in
      w6 <- match best_model_save_path f1 with
            | Some p =>
                m <- match model b with Some m => Ok m | None => Raise AttributeError end ;;
                Ok (emit (Save m (os_path_join p "best_model")) w5)
            | None => Ok w5
            end ;;
      let f2 := set_best_mean_reward f1 mean_reward in
      match callback with
      | Some _ =>
          '(c', w7, r) <- _on_event (ParentEval (best_mean_reward f2)) callback w6 ;;
          Ok (c', f2, w7, r)
      | None => Ok (callback, f2, w6, true)
      end
    else Ok (callback, f1, w4, true)
  else Ok (callback, f, w, true).

Definition StopTrainingOnRewardThreshold_on_step (pv : parent_view) (b : BaseCallback)
    (reward_threshold : float) (w : world) : result (world * bool) :=
  match pv with
  | NoParent => Raise AssertionError
  | ParentEveryN => Raise AttributeError
  | ParentEval best =>
      let continue_training := SFltb best reward_threshold in
      let w1 := emit_if ((verbose b >? 0) && negb continue_training)
                        (Print (MsgStopping best reward_threshold)) w in
      Ok (w1, continue_training)
  end.

Definition EveryNTimesteps_on_step (b : BaseCallback) (callback : option C)
    (n_steps last_time_trigger : Z) (w : world) : result (option C * Z * world * bool) :=
  if num_timesteps b - last_time_trigger >=? n_steps then
    let last_time_trigger := num_timesteps b in
    '(c', w', r) <- _on_event ParentEveryN callback w ;;
    Ok (c', last_time_trigger, w', r)
  else Ok (callback, last_time_trigger, w, true).

Definition UserCallback_on_step (b : BaseCallback) (methods : overrides) (s : user_state)
    (w : world) : result (user_state * world * bool) :=
  '(r, s', es) <- user_on_step methods b s w ;; Ok (s', emit_all es w, r).

(** Dynamic dispatch of [self._on_step()]. *)
Definition dispatch_on_step (pv : parent_view) (b : BaseCallback) (k : kind C) (w : world)
    : result (kind C * world * bool) :=
  match k with
  | CallbackList cs =>
      '(cs', w', r) <- CallbackList_on_step cs w ;; Ok (CallbackList cs', w', r)
  | CheckpointCallback save_freq save_path name_prefix =>
      '(w', r) <- CheckpointCallback_on_step b save_freq save_path name_prefix w ;;
      Ok (k, w', r)
  | ConvertCallback f =>
      '(w', r) <- ConvertCallback_on_step b f w ;; Ok (k, w', r)
  | EvalCallback c f =>
      '(c', f', w', r) <- EvalCallback_on_step b c f w ;; Ok (EvalCallback c' f', w', r)
  | StopTrainingOnRewardThreshold reward_threshold =>
      '(w', r) <- StopTrainingOnRewardThreshold_on_step pv b reward_threshold w ;;
      Ok (k, w', r)
  | EveryNTimesteps c n_steps last_time_trigger =>
      '(c', last', w', r) <- EveryNTimesteps_on_step b c n_steps last_time_trigger w ;;
      Ok (EveryNTimesteps c' n_steps last', w', r)
  | UserCallback methods s =>
      '(s', w', r) <- UserCallback_on_step b methods s w ;; Ok (UserCallback methods s', w', r)
  end.

End OnStep.

(** [BaseCallback.__call__] *)
Fixpoint call (pv : parent_view) (cb : callback) (w : world) {struct cb}
    : result (callback * world * bool) :=
  match cb with
  | Hook b k =>
      b' <- tick b w ;;
      '(k', w', r) <- dispatch_on_step callback call pv b' k w ;;
      Ok (Hook b' k', w', r)
  end.

(** [self._on_step()] on a whole object. *)
Definition _on_step (pv : parent_view) (cb : callback) (w : world)
    : result (callback * world * bool) :=
  match cb with
  | Hook b k =>
      '(k', w', r) <- dispatch_on_step callback call pv b k w ;;
      Ok (Hook b k', w', r)
  end.

(** *** The other lifecycle methods

    [init], [start] and [finish] are [init_callback], [on_training_start]
    and [on_training_end] on a child. *)

Section Lifecycle.

Variable C : Type.
Variable init : C -> model_ref -> world -> result (C * world).
Variable start : C -> dict_ref -> dict_ref -> world -> result (C * world).
Variable finish : C -> world -> result (C * world).

(** [for callback in self.callbacks: ...] with a method that returns nothing. *)
Fixpoint for_each (f : C -> world -> result (C * world)) (callbacks : list C) (w : world)
    : result (list C * world) :=
  match callbacks with
  | [] => Ok ([], w)
  | c :: rest =>
      '(c', w1) <- f c w ;;
      '(rest', w2) <- for_each f rest w1 ;;
      Ok (c' :: rest', w2)
  end.

(** [self.callback.m(...)] as [EventCallback] writes it, with no test for
    [None]: on [None] the attribute lookup fails. *)
Definition on_child (f : C -> world -> result (C * world)) (callback : option C) (w : world)
    : result (option C * world) :=
  match callback with
  | Some c => '(c', w') <- f c w ;; Ok (Some c', w')
  | None => Raise AttributeError
  end.

(** [os.makedirs(path, exist_ok=True)] under [if path is not None]. *)
Definition makedirs_if_set (f : string -> string) (path : option string) (w : world) : world :=
  match path with
  | Some p => emit (Makedirs (f p)) w
  | None => w
  end.

(** [self._init_callback()], then for an [EventCallback] the second line of
    its [init_callback]; [b] holds the fields [init_callback] has just set
    and [m] is [self.model]. *)
Definition dispatch_init_callback (m : model_ref) (b : BaseCallback) (k : kind C) (w : world)
    : result (kind C * world) :=
  match k with
  | CallbackList cs =>
      '(cs', w') <- for_each (fun c => init c m) cs w ;; Ok (CallbackList cs', w')
  | CheckpointCallback _ save_path _ =>
      Ok (k, makedirs_if_set (fun p => p) save_path w)
  | EvalCallback c f =>
      let w1 := makedirs_if_set (fun p => p) (best_model_save_path f) w in
      let w2 := makedirs_if_set os_path_dirname (log_path f) w1 in
      '(c', w3) <- on_child (fun c => init c m) c w2 ;; Ok (EvalCallback c' f, w3)
  | EveryNTimesteps c n_steps last_time_trigger =>
      '(c', w') <- on_child (fun c => init c m) c w ;;
      Ok (EveryNTimesteps c' n_steps last_time_trigger, w')
  | UserCallback methods s =>
      '(s', es) <- user_init_callback methods b s w ;;
      Ok (UserCallback methods s', emit_all es w)
  | ConvertCallback _ | StopTrainingOnRewardThreshold _ => Ok (k, w)
  end.

(** [self._on_training_start()]; [l] and [g] are [self.locals] and
    [self.globals]. *)
Definition dispatch_on_training_start (l g : dict_ref) (b : BaseCallback) (k : kind C)
    (w : world) : result (kind C * world) :=
  match k with
  | CallbackList cs =>
      '(cs', w') <- for_each (fun c => start c l g) cs w ;; Ok (CallbackList cs', w')
  | EvalCallback c f =>
      '(c', w') <- on_child (fun c => start c l g) c w ;; Ok (EvalCallback c' f, w')
  | EveryNTimesteps c n_steps last_time_trigger =>
      '(c', w') <- on_child (fun c => start c l g) c w ;;
      Ok (EveryNTimesteps c' n_steps last_time_trigger, w')
  | UserCallback methods s =>
      '(s', es) <- user_on_training_start methods b s w ;;
      Ok (UserCallback methods s', emit_all es w)
  | CheckpointCallback _ _ _ | ConvertCallback _ | StopTrainingOnRewardThreshold _ =>
      Ok (k, w)
  end.

(** [self._on_training_end()] *)
Definition dispatch_on_training_end (b : BaseCallback) (k : kind C) (w : world)
    : result (kind C * world) :=
  match k with
  | CallbackList cs =>
      '(cs', w') <- for_each finish cs w ;; Ok (CallbackList cs', w')
  | UserCallback methods s =>
      '(s', es) <- user_on_training_end methods b s w ;;
      Ok (UserCallback methods s', emit_all es w)
  | _ => Ok (k, w)
  end.

(** [self._on_rollout_start()]: [BaseCallback]'s [pass] unless a user
    class overrides it. *)
Definition dispatch_on_rollout_start (b : BaseCallback) (k : kind C) (w : world)
    : result (kind C * world) :=
  match k with
  | UserCallback methods s =>
      '(s', es) <- user_on_rollout_start methods b s w ;;
      Ok (UserCallback methods s', emit_all es w)
  | _ => Ok (k, w)
  end.

(** [self._on_rollout_end()] *)
Definition dispatch_on_rollout_end (b : BaseCallback) (k : kind C) (w : world)
    : result (kind C * world) :=
  match k with
  | UserCallback methods s =>
      '(s', es) <- user_on_rollout_end methods b s w ;;
      Ok (UserCallback methods s', emit_all es w)
  | _ => Ok (k, w)
  end.

End Lifecycle.

(** [init_callback]: [BaseCallback.init_callback], extended by
    [EventCallback.init_callback]. *)
Fixpoint init_callback (cb : callback) (m : model_ref) (w : world) {struct cb}
    : result (callback * world) :=
  match cb with
  | Hook b k =>
      let b' := bind_model b m w in
      '(k', w') <- dispatch_init_callback callback init_callback m b' k w ;;
      Ok (Hook b' k', w')
  end.

(** [BaseCallback.on_training_start] *)
Fixpoint on_training_start (cb : callback) (locals_ globals_ : dict_ref) (w : world)
    {struct cb} : result (callback * world) :=
  match cb with
  | Hook b k =>
      let b' := bind_locals b locals_ globals_ in
      '(k', w') <-
        dispatch_on_training_start callback on_training_start locals_ globals_ b' k w ;;
      Ok (Hook b' k', w')
  end.

(** [BaseCallback.on_training_end] *)
Fixpoint on_training_end (cb : callback) (w : world) {struct cb}
    : result (callback * world) :=
  match cb with
  | Hook b k =>
      '(k', w') <- dispatch_on_training_end callback on_training_end b k w ;;
      Ok (Hook b k', w')
  end.

(** [BaseCallback.on_rollout_start] *)
Definition on_rollout_start (cb : callback) (w : world) : result (callback * world) :=
  match cb with
  | Hook b k =>
      '(k', w') <- dispatch_on_rollout_start callback b k w ;; Ok (Hook b k', w')
  end.

(** [BaseCallback.on_rollout_end] *)
Definition on_rollout_end (cb : callback) (w : world) : result (callback * world) :=
  match cb with
  | Hook b k =>
      '(k', w') <- dispatch_on_rollout_end callback b k w ;; Ok (Hook b k', w')
  end.

(** *** Driving a callback

    The trainer moves its counter to [t] and calls the callback, once for
    every element of [ts]. *)

Definition train_to (t : Z) (w : world) : world :=
  mkWorld (fun _ => t) (get_env w) (Logger_CURRENT w) (trace w).

Fixpoint run (pv : parent_view) (cb : callback) (w : world) (ts : list Z)
    : result (callback * world * list bool) :=
  match ts with
  | [] => Ok (cb, w, [])
  | t :: rest =>
      '(cb1, w1, r) <- call pv cb (train_to t w) ;;
      '(cb2, w2, rs) <- run pv cb1 w1 rest ;;
      Ok (cb2, w2, r :: rs)
  end.

End Callbacks.

Arguments CallbackList {E C} callbacks.
Arguments CheckpointCallback {E C} save_freq save_path name_prefix.
Arguments ConvertCallback {E C} callback.
Arguments EvalCallback {E C} callback fields.
Arguments StopTrainingOnRewardThreshold {E C} reward_threshold.
Arguments EveryNTimesteps {E C} callback n_steps last_time_trigger.
Arguments UserCallback {E C} methods state.
Arguments _on_event {C} step pv callback w.
Arguments fire_all {C} step callbacks w continue_training.
Arguments for_each {C} f callbacks w.
Arguments on_child {C} f callback w.

(** ** Vocabulary of the properties *)

Section Vocabulary.

Context {E : Collaborators}.

(** [fires w cs cs' rs w']: called one after the other from the world [w],
    in the order of the list, the children [cs] return the booleans [rs]
    and become [cs'], and the world becomes [w']. *)
Inductive fires : world -> list callback -> list callback -> list bool -> world -> Prop :=
| fires_nil (w : world) : fires w [] [] [] w
| fires_cons (w w1 w2 : world) (c c' : callback) (r : bool)
    (cs cs' : list callback) (rs : list bool) :
    call NoParent c w = Ok (c', w1, r) ->
    fires w1 cs cs' rs w2 ->
    fires w (c :: cs) (c' :: cs') (r :: rs) w2.

(** The same for a lifecycle method [f], which returns nothing. *)
Inductive reaches (f : callback -> world -> result (callback * world))
    : world -> list callback -> list callback -> world -> Prop :=
| reaches_nil (w : world) : reaches f w [] [] w
| reaches_cons (w w1 w2 : world) (c c' : callback) (cs cs' : list callback) :
    f c w = Ok (c', w1) ->
    reaches f w1 cs cs' w2 ->
    reaches f w (c :: cs) (c' :: cs') w2.

(** [self.best_mean_reward] of an [EvalCallback]. *)
Definition best_of (cb : callback) : option float :=
  match kind_of cb with
  | EvalCallback _ f => Some (best_mean_reward f)
  | _ => None
  end.

(** Called in the world [w], the [EvalCallback] [cb] runs an evaluation
    and [evaluate_policy] returns the episode rewards [rs]. *)
Definition evaluates (cb : callback) (w : world) (rs : list float) : Prop :=
  match cb with
  | Hook b (EvalCallback _ f) =>
      eval_freq f <> 0 /\
      (n_calls b + 1) mod eval_freq f = 0 /\
      evaluate_policy (emit (SyncEnvsNormalization (training_env b) (eval_env f)) w)
        (model b) (eval_env f) (n_eval_episodes f) (deterministic f) = Ok rs
  | _ => False
  end.

(** [later pv cb cb']: [cb'] is [cb] after some calls that returned, the
    trainer and the rest of the world doing anything between two calls. *)
Inductive later (pv : parent_view) : callback -> callback -> Prop :=
| later_refl (cb : callback) : later pv cb cb
| later_call (cb cb1 cb' : callback) (w w1 : world) (r : bool) :
    call pv cb w = Ok (cb1, w1, r) ->
    later pv cb1 cb' ->
    later pv cb cb'.

Definition is_save (e : event) : bool :=
  match e with
  | Save _ _ => true
  | _ => false
  end.

(** No [model.save] among the requests [es]. *)
Definition quiet (es : list event) : bool := forallb (fun e => negb (is_save e)) es.

(** The file a [CheckpointCallback] writes at the timestep [t]. *)
Definition checkpoint_path (dir name_prefix : string) (t : Z) : string :=
  os_path_join dir (name_prefix ++ "_" ++ str_int t ++ "_steps")%string.

(** The calls [n0 + 1], [n0 + 2], ... of a run, each with the trainer's
    counter at that call. *)
Fixpoint numbered (n0 : Z) (ts : list Z) : list (Z * Z) :=
  match ts with
  | [] => []
  | t :: rest => (n0 + 1, t) :: numbered (n0 + 1) rest
  end.

(** The calls of a run whose number is a multiple of [F]. *)
Definition checkpoint_calls (F n0 : Z) (ts : list Z) : list (Z * Z) :=
  filter (fun c => fst c mod F =? 0) (numbered n0 ts).

(** The children a callback owns. *)
Definition children {C : Type} (k : kind C) : list C :=
  match k with
  | CallbackList cs => cs
  | EvalCallback (Some c) _ => [c]
  | EveryNTimesteps (Some c) _ _ => [c]
  | _ => []
  end.

(** [P] holds of a callback and of every callback below it. *)
#[warnings="-register-all"]
Inductive every_hook (P : BaseCallback -> kind callback -> Prop) : callback -> Prop :=
| every_hook_intro (b : BaseCallback) (k : kind callback) :
    P b k -> Forall (every_hook P) (children k) -> every_hook P (Hook b k).

(** An [EventCallback] that has its child; true of the other classes. *)
Definition has_child (b : BaseCallback) (k : kind callback) : Prop :=
  match k with
  | EvalCallback None _ => False
  | EveryNTimesteps None _ _ => False
  | _ => True
  end.

(** A callback of one of the classes of this file. *)
Definition not_user (b : BaseCallback) (k : kind callback) : Prop :=
  match k with
  | UserCallback _ _ => False
  | _ => True
  end.

(** The three fields [init_callback] sets, for the model [m] in the world
    [w]. *)
Definition bound_to (m : model_ref) (w : world) (b : BaseCallback) (k : kind callback)
    : Prop :=
  model b = Some m /\ training_env b = get_env w m /\ logger b = Logger_CURRENT w.

(** The two fields [on_training_start] sets. *)
Definition holds_dicts (l g : dict_ref) (b : BaseCallback) (k : kind callback) : Prop :=
  locals b = Some l /\ globals b = Some g.

(** [w'] is [w] with more requests in its trace: the trainer is as in [w]
    and no request of [w] is lost. *)
Definition extends (w w' : world) : Prop := exists es, w' = emit_all es w.

Definition is_nan (x : float) : bool :=
  match x with
  | S754_nan => true
  | _ => false
  end.

(** The two sequences an [EvalCallback] logs. *)
Definition log_of (cb : callback) : option (list Z * list (list float)) :=
  match kind_of cb with
  | EvalCallback _ f => Some (evaluations_timesteps f, evaluations_results f)
  | _ => None
  end.

End Vocabulary.

(** ** Objects the properties are tried on *)

(** 1.0 as a binary64 value. *)
Definition one : float := S754_finite false 4503599627370496 (-52).

(** An evaluation routine that always returns one episode of reward 1.0;
    the mean of one episode is its reward. *)
Definition demo : Collaborators := {|
  user_state := nat;
  evaluate_policy := fun _ _ _ _ _ => Ok [one];
  np_mean := fun rs => hd S754_nan rs;
  np_std := fun _ => S754_zero false;
  os_path_dirname := fun p => p
|}.

Definition demo_world : world :=
  mkWorld (fun _ => 0) (fun _ => Some 7%nat) (Some 1%nat) [].

(** A user callback that counts the extension points it runs and logs
    their names. *)
Definition probe_methods : @overrides demo :=
  @mkOverrides demo
    (fun _ s _ => Ok (S s, [UserEvent "_init_callback"]))
    (fun _ s _ => Ok (S s, [UserEvent "_on_training_start"]))
    (fun _ s _ => Ok (S s, [UserEvent "_on_rollout_start"]))
    (fun _ s _ => Ok (true, S s, [UserEvent "_on_step"]))
    (fun _ s _ => Ok (S s, [UserEvent "_on_training_end"]))
    (fun _ s _ => Ok (S s, [UserEvent "_on_rollout_end"])).

Definition probe (runs : nat) : @callback demo :=
  @UserCallback_init demo probe_methods runs 0.

(** The fields of a callback bound to the trainer [0] of [demo_world]. *)
Definition bound (n_calls num_timesteps : Z) : BaseCallback :=
  mkBase (Some 0%nat) (Some 7%nat) n_calls num_timesteps 0 None None (Some 1%nat).

(** An old-style callback that asks to stop, after [n] calls. *)
Definition refuse (n : Z) : @callback demo :=
  @Hook demo (bound n n) (ConvertCallback (Some (fun _ _ _ => Ok (false, [])))).

(** The probe bound to the trainer, after [n] calls at the timestep [t]. *)
Definition stepper (n t : Z) (runs : nat) : @callback demo :=
  @Hook demo (bound n t) (UserCallback probe_methods runs).

(** A bound [CheckpointCallback] that saves under [logs] every [F] calls. *)
Definition checkpoint (F : Z) : @callback demo :=
  @Hook demo (bound 0 0) (CheckpointCallback F (Some "logs"%string) "rl_model"%string).

(** A bound [EveryNTimesteps] that runs the probe every [n] timesteps. *)
Definition every (n : Z) : @callback demo :=
  @Hook demo (bound 0 0) (EveryNTimesteps (Some (stepper 0 0 0)) n 0).

(** A bound [EvalCallback] that evaluates at every call and keeps the best
    model under [best]; [n] calls made, [best] the best mean so far. *)
Definition evaluator (n t : Z) (best : float) : @callback demo :=
  @Hook demo (bound n t)
    (EvalCallback None
       (mkEval 5 1 best true (GymEnv 3%nat) (Some "best"%string) None [] [])).

(** A new tree, not yet bound: a list of an [EveryNTimesteps] over the
    probe and of a [CheckpointCallback]. *)
Definition demo_tree : @callback demo :=
  CallbackList_init
    [EveryNTimesteps_init 5 (Some (probe 0));
     CheckpointCallback_init 10 (Some "logs"%string) "rl_model"%string 0].

(** A new tree of callbacks of the classes of this file only. *)
Definition plain_tree : @callback demo :=
  CallbackList_init
    [EveryNTimesteps_init 5
       (Some (CheckpointCallback_init 2 None "rl_model"%string 0));
     StopTrainingOnRewardThreshold_init one 0].

(** The fields of an [EvalCallback] that evaluates at every call. *)
Definition every_call (best : float) (log_path : option string)
    (results : list (list float)) (timesteps : list Z) : EvalFields :=
  mkEval 5 1 best true (GymEnv 3%nat) None log_path results timesteps.

(** A bound threshold callback, of threshold 1.0, after [n] calls. *)
Definition threshold (n t : Z) : @callback demo :=
  @Hook demo (bound n t) (StopTrainingOnRewardThreshold one).

(** A bound [EvalCallback] over the threshold callback. *)
Definition guarded (n t : Z) (best : float) (child : @callback demo) : @callback demo :=
  @Hook demo (bound n t) (EvalCallback (Some child) (every_call best None [] [])).

(** A bound [EvalCallback] that logs its evaluations. *)
Definition recorder (n t : Z) (best : float) (results : list (list float))
    (timesteps : list Z) : @callback demo :=
  @Hook demo (bound n t)
    (EvalCallback None (every_call best (Some "evals.npz"%string) results timesteps)).

(** An old-style callback that logs and continues. *)
Definition old_style : @functional_callback :=
  fun _ _ _ => Ok (true, [UserEvent "old"]).

(** The requests of a run that are saves, and the number of times the
    probe was stepped. *)
Definition saves_and_steps (r : result (@callback demo * world * list bool))
    : list event * nat :=
  match r with
  | Ok (_, w, _) =>
      (filter is_save (trace w),
       List.length (filter (fun e => match e with UserEvent _ => true | _ => false end)
                           (trace w)))
  | Raise _ => ([], 0%nat)
  end.


(** * Properties *)

(** ** The order of the floats *)

Section FloatOrder.

Lemma SFcompare_finite_pos (m1 m2 : positive) (e1 e2 : Z) :
  SFcompare (S754_finite false m1 e1) (S754_finite false m2 e2) =
  Some match e1 ?= e2 with Lt => Lt | Gt => Gt | Eq => (m1 ?= m2)%positive end.
Proof. reflexivity. Qed.

Lemma SFcompare_finite_neg (m1 m2 : positive) (e1 e2 : Z) :
  SFcompare (S754_finite true m1 e1) (S754_finite true m2 e2) =
  Some match e1 ?= e2 with Lt => Gt | Gt => Lt | Eq => CompOpp (m1 ?= m2)%positive end.
Proof. reflexivity. Qed.

Ltac order_cases :=
  repeat match goal with
  | |- context [(?a ?= ?b)%positive] =>
      destruct (Pos.compare_spec a b); subst
  | |- context [?a ?= ?b] =>
      destruct (Z.compare_spec a b); subst
  | H : context [(?a ?= ?b)%positive] |- _ =>
      destruct (Pos.compare_spec a b); subst
  | H : context [?a ?= ?b] |- _ =>
      destruct (Z.compare_spec a b); subst
  end;
  simpl in *; try congruence; try lia.

(** Swapping the operands of a comparison reverses its outcome. *)
Lemma SFcompare_antisym (x y : float) (c : comparison) :
  SFcompare x y = Some c -> SFcompare y x = Some (CompOpp c).
Proof.
  destruct x as [sx|sx| |sx mx ex], y as [sy|sy| |sy my ey];
    try destruct sx; try destruct sy; simpl; intros H;
    try (injection H as <-; reflexivity); try discriminate.
  - change (Pos.compare_cont Eq mx my) with (mx ?= my)%positive in H.
    change (Pos.compare_cont Eq my mx) with (my ?= mx)%positive.
    injection H as <-. f_equal. order_cases.
  - change (Pos.compare_cont Eq mx my) with (mx ?= my)%positive in H.
    change (Pos.compare_cont Eq my mx) with (my ?= mx)%positive.
    injection H as <-. f_equal. order_cases.
Qed.

Lemma SFltb_irrefl (x : float) : SFltb x x = false.
Proof.
  unfold SFltb.
  destruct x as [s|s| |s m e]; try destruct s; simpl; try reflexivity;
    rewrite Z.compare_refl;
    change (Pos.compare_cont Eq m m) with (m ?= m)%positive;
    rewrite Pos.compare_refl; reflexivity.
Qed.

Lemma SFltb_trans (x y z : float) :
  SFltb x y = true -> SFltb y z = true -> SFltb x z = true.
Proof.
  unfold SFltb.
  destruct x as [sx|sx| |sx mx ex], y as [sy|sy| |sy my ey], z as [sz|sz| |sz mz ez];
    try destruct sx; try destruct sy; try destruct sz;
    try (simpl; congruence);
    rewrite ?SFcompare_finite_pos, ?SFcompare_finite_neg;
    try (simpl; congruence);
    intros H1 H2; order_cases.
Qed.

(** [==] on the right operand does not change [<]. *)
Lemma SFltb_eqb_r (x y z : float) :
  SFltb x z = true -> SFeqb y z = true -> SFltb x y = true.
Proof.
  unfold SFltb, SFeqb.
  destruct x as [sx|sx| |sx mx ex], y as [sy|sy| |sy my ey], z as [sz|sz| |sz mz ez];
    try destruct sx; try destruct sy; try destruct sz;
    try (simpl; congruence);
    rewrite ?SFcompare_finite_pos, ?SFcompare_finite_neg;
    try (simpl; congruence);
    intros H1 H2; order_cases.
Qed.

(** [y <= x] excludes [x < y]. *)
Lemma SFleb_not_ltb (x y : float) : SFleb y x = true -> SFltb x y = false.
Proof.
  unfold SFleb, SFltb. intros H.
  destruct (SFcompare y x) as [c|] eqn:Hc; [|discriminate].
  rewrite (SFcompare_antisym _ _ _ Hc).
  destruct c; simpl in *; congruence.
Qed.

End FloatOrder.

(** ** The callbacks *)

Section Properties.

Context {E : Collaborators}.

Lemma bind_Ok {A B : Type} (r : result A) (k : A -> result B) (b : B) :
  bind r k = Ok b -> exists a, r = Ok a /\ k a = Ok b.
Proof. destruct r as [a|e]; simpl; [eauto | discriminate]. Qed.

Lemma call_unfold (pv : parent_view) (b : BaseCallback) (k : kind callback) (w : world) :
  call pv (Hook b k) w =
  (b' <- tick b w ;;
   '(k', w', r) <- dispatch_on_step callback call pv b' k w ;;
   Ok (Hook b' k', w', r)).
Proof. reflexivity. Qed.

Lemma tick_Ok (b b' : BaseCallback) (w : world) :
  tick b w = Ok b' ->
  exists m, model b = Some m /\
            n_calls b' = n_calls b + 1 /\
            num_timesteps b' = num_timesteps_of w m + 1.
Proof.
  unfold tick. destruct (model b) as [m|] eqn:Hm; [|discriminate].
  intros H. injection H as <-. exists m. simpl. auto.
Qed.

(** A call that returns has counted itself. *)
Lemma call_counts (pv : parent_view) (cb cb' : callback) (w w' : world) (r : bool) :
  call pv cb w = Ok (cb', w', r) ->
  n_calls (base_of cb') = n_calls (base_of cb) + 1.
Proof.
  destruct cb as [b k]. rewrite call_unfold. intros H.
  apply bind_Ok in H as (b' & Ht & H).
  apply bind_Ok in H as ([[k' w1] r1] & _ & H).
  injection H as <- _ _. simpl.
  apply tick_Ok in Ht as (m & _ & Hn & _). exact Hn.
Qed.

(** *** CallbackList *)

Lemma fire_all_fires (w w' : world) (cs cs' : list callback) (rs : list bool) :
  fires w cs cs' rs w' ->
  forall acc, fire_all (call) cs w acc = Ok (cs', w', forallb id rs && acc).
Proof.
  induction 1 as [w|w w1 w2 c c' r cs cs' rs Hc _ IH]; intros acc; simpl.
  - reflexivity.
  - rewrite Hc. simpl. rewrite IH. simpl.
    unfold id at 1. rewrite andb_assoc, (andb_comm r). reflexivity.
Qed.

Lemma fires_counts (w w' : world) (cs cs' : list callback) (rs : list bool) :
  fires w cs cs' rs w' ->
  Forall2 (fun c c' => n_calls (base_of c') = n_calls (base_of c) + 1) cs cs' /\
  List.length rs = List.length cs.
Proof.
  induction 1 as [w|w w1 w2 c c' r cs cs' rs Hc _ [IH1 IH2]]; split; simpl; auto.
  constructor; [exact (call_counts _ _ _ _ _ _ Hc) | exact IH1].
Qed.

(** Whatever [CallbackList._on_step] returns comes from calling every
    child. *)
Lemma fire_all_inv (cs cs' : list callback) (w w' : world) (acc r : bool) :
  fire_all call cs w acc = Ok (cs', w', r) ->
  exists rs, fires w cs cs' rs w' /\ r = forallb id rs && acc.
Proof.
  revert cs' w acc r.
  induction cs as [|c cs IH]; intros cs' w acc r; simpl; intros H.
  - injection H as <- <- <-. exists []. split; [constructor | reflexivity].
  - apply bind_Ok in H as ([[c' w1] r1] & Hc & H).
    apply bind_Ok in H as ([[rest' w2] k] & Hrest & H).
    injection H as <- <- <-.
    apply IH in Hrest as (rs & Hf & ->).
    exists (r1 :: rs). split; [econstructor; eassumption|].
    simpl. unfold id at 2. rewrite andb_assoc, (andb_comm r1). reflexivity.
Qed.

(** C1. [CallbackList._on_step] calls every child, in the order of the
    list and whatever the earlier ones returned, and returns the
    conjunction of what they return; a call adds one to the [n_calls] of
    every child. *)
Theorem CallbackList_on_step_conjunction (pv : parent_view) (b : BaseCallback)
    (cs cs' : list callback) (rs : list bool) (w w' : world) :
  fires w cs cs' rs w' ->
  _on_step pv (Hook b (CallbackList cs)) w
    = Ok (Hook b (CallbackList cs'), w', forallb id rs) /\
  Forall2 (fun c c' => n_calls (base_of c') = n_calls (base_of c) + 1) cs cs' /\
  List.length rs = List.length cs.
Proof.
  intros H. split; [|exact (fires_counts _ _ _ _ _ H)].
  simpl. unfold CallbackList_on_step.
  rewrite (fire_all_fires _ _ _ _ _ H). simpl.
  rewrite andb_true_r. reflexivity.
Qed.

Lemma CallbackList_on_step_inv (pv : parent_view) (b : BaseCallback)
    (cs : list callback) (cb' : callback) (w w' : world) (r : bool) :
  _on_step pv (Hook b (CallbackList cs)) w = Ok (cb', w', r) ->
  exists cs' rs, fires w cs cs' rs w' /\
                 cb' = Hook b (CallbackList cs') /\ r = forallb id rs.
Proof.
  simpl. unfold CallbackList_on_step. intros H.
  apply bind_Ok in H as ([[k' w1] r1] & H & H1).
  apply bind_Ok in H as ([[cs' w2] r2] & Hf & H).
  injection H as <- <- <-. injection H1 as <- <- <-.
  apply fire_all_inv in Hf as (rs & Hf & ->).
  exists cs', rs. rewrite andb_true_r. auto.
Qed.

(** The lifecycle methods [CallbackList] overrides reach every child, in
    the order of the list, with the model and the dictionaries the list
    was given. *)
Lemma for_each_reaches (f : callback -> world -> result (callback * world))
    (w w' : world) (cs cs' : list callback) :
  reaches f w cs cs' w' -> for_each f cs w = Ok (cs', w').
Proof.
  induction 1 as [w|w w1 w2 c c' cs cs' Hc _ IH]; simpl.
  - reflexivity.
  - rewrite Hc. simpl. rewrite IH. reflexivity.
Qed.

Lemma CallbackList_fans_out (b : BaseCallback) (cs cs' : list callback) (w w' : world)
    (m : model_ref) (l g : dict_ref) :
  (reaches (fun c => init_callback c m) w cs cs' w' ->
   init_callback (Hook b (CallbackList cs)) m w
     = Ok (Hook (bind_model b m w) (CallbackList cs'), w')) /\
  (reaches (fun c => on_training_start c l g) w cs cs' w' ->
   on_training_start (Hook b (CallbackList cs)) l g w
     = Ok (Hook (bind_locals b l g) (CallbackList cs'), w')) /\
  (reaches on_training_end w cs cs' w' ->
   on_training_end (Hook b (CallbackList cs)) w = Ok (Hook b (CallbackList cs'), w')).
Proof.
  repeat split; intros H; simpl; rewrite (for_each_reaches _ _ _ _ _ H); reflexivity.
Qed.

(** [on_rollout_start] and [on_rollout_end] of a [CallbackList] stop at
    the list: no child is touched. *)
Lemma CallbackList_keeps_rollout (b : BaseCallback) (cs : list callback) (w : world) :
  on_rollout_start (Hook b (CallbackList cs)) w = Ok (Hook b (CallbackList cs), w) /\
  on_rollout_end (Hook b (CallbackList cs)) w = Ok (Hook b (CallbackList cs), w).
Proof. split; reflexivity. Qed.

(** C2. A [CallbackList] that holds one user callback: [on_training_end]
    runs the child's [_on_training_end], whereas [on_rollout_start] and
    [on_rollout_end] return without running the child's methods, which
    called on the child itself do run. *)
Theorem CallbackList_rollout_not_propagated :
  @on_training_end demo (CallbackList_init [probe 0]) demo_world
    = Ok (CallbackList_init [probe 1], emit (UserEvent "_on_training_end") demo_world) /\
  @on_rollout_start demo (CallbackList_init [probe 0]) demo_world
    = Ok (CallbackList_init [probe 0], demo_world) /\
  @on_rollout_end demo (CallbackList_init [probe 0]) demo_world
    = Ok (CallbackList_init [probe 0], demo_world) /\
  @on_rollout_start demo (probe 0) demo_world
    = Ok (probe 1, emit (UserEvent "_on_rollout_start") demo_world) /\
  @on_rollout_end demo (probe 0) demo_world
    = Ok (probe 1, emit (UserEvent "_on_rollout_end") demo_world).
Proof. repeat split; reflexivity. Qed.

(** *** EventCallback *)

(** With a child, [init_callback] binds the wrapper and then the child to
    the same model, and [on_training_start] hands the child the same two
    dictionaries. *)
Lemma EventCallback_propagates (b : BaseCallback) (c c' : callback) (n last : Z)
    (m : model_ref) (l g : dict_ref) (w w' : world) :
  (init_callback c m w = Ok (c', w') ->
   init_callback (Hook b (EveryNTimesteps (Some c) n last)) m w
     = Ok (Hook (bind_model b m w) (EveryNTimesteps (Some c') n last), w')) /\
  (on_training_start c l g w = Ok (c', w') ->
   on_training_start (Hook b (EveryNTimesteps (Some c) n last)) l g w
     = Ok (Hook (bind_locals b l g) (EveryNTimesteps (Some c') n last), w')).
Proof. split; intros H; simpl; rewrite H; reflexivity. Qed.

(** C3. An [EventCallback] built without a child: [_on_event] returns
    [True], but [init_callback] and [on_training_start] raise
    [AttributeError], for an [EvalCallback] as for an [EveryNTimesteps]. *)
Theorem EventCallback_without_child (pv : parent_view) (b : BaseCallback)
    (f : EvalFields) (n last : Z) (m : model_ref) (l g : dict_ref) (w : world) :
  _on_event call pv None w = Ok (None, w, true) /\
  init_callback (Hook b (EvalCallback None f)) m w = Raise AttributeError /\
  on_training_start (Hook b (EvalCallback None f)) l g w = Raise AttributeError /\
  init_callback (Hook b (EveryNTimesteps None n last)) m w = Raise AttributeError /\
  on_training_start (Hook b (EveryNTimesteps None n last)) l g w = Raise AttributeError.
Proof. repeat split; reflexivity. Qed.

(** *** BaseCallback.__call__ *)

Lemma call_unbound (pv : parent_view) (cb : callback) (w : world) :
  model (base_of cb) = None -> call pv cb w = Raise AttributeError.
Proof.
  destruct cb as [b k]. simpl. intros H. unfold tick. rewrite H. reflexivity.
Qed.

Lemma on_step_keeps_base (pv : parent_view) (b : BaseCallback) (k : kind callback)
    (cb' : callback) (w w' : world) (r : bool) :
  _on_step pv (Hook b k) w = Ok (cb', w', r) -> base_of cb' = b.
Proof.
  simpl. intros H. apply bind_Ok in H as ([[k' w1] r1] & _ & H).
  injection H as <- _ _. reflexivity.
Qed.

(** C9. On a callback bound to a model, [__call__] adds one to [n_calls],
    sets [num_timesteps] to the model's counter plus one, runs [_on_step]
    on the object so updated and returns what [_on_step] returns, the
    boolean included.  The other lifecycle methods ([init_callback],
    [on_training_start], [on_training_end], [on_rollout_start],
    [on_rollout_end]) return a callback and a world and no boolean: that
    is their type. *)
Theorem call_counts_then_delegates (pv : parent_view) (cb : callback) (w : world)
    (m : model_ref) :
  model (base_of cb) = Some m ->
  let b := base_of cb in
  let b1 := mkBase (model b) (training_env b) (n_calls b + 1) (num_timesteps_of w m + 1)
                   (verbose b) (locals b) (globals b) (logger b) in
  call pv cb w = _on_step pv (Hook b1 (kind_of cb)) w /\
  forall (cb' : callback) (w' : world) (r : bool),
    _on_step pv (Hook b1 (kind_of cb)) w = Ok (cb', w', r) ->
    call pv cb w = Ok (cb', w', r) /\
    n_calls (base_of cb') = n_calls b + 1 /\
    num_timesteps (base_of cb') = num_timesteps_of w m + 1.
Proof.
  destruct cb as [b k]. simpl base_of. simpl kind_of. intros Hm b0 b1.
  assert (Hcall : call pv (Hook b k) w = _on_step pv (Hook b1 k) w).
  { rewrite call_unfold. unfold tick, b1, b0. rewrite Hm. reflexivity. }
  split; [exact Hcall|].
  intros cb' w' r H. rewrite Hcall. split; [exact H|].
  apply on_step_keeps_base in H. rewrite H. split; reflexivity.
Qed.

(** *** StopTrainingOnRewardThreshold *)

(** C5. Under an [EvalCallback], [_on_step] returns [True] when the
    parent's [best_mean_reward] is below the threshold and [False] when it
    has reached it. *)
Theorem StopTrainingOnRewardThreshold_on_step_threshold (b : BaseCallback)
    (reward_threshold best : float) (w : world) :
  (SFltb best reward_threshold = true ->
   _on_step (ParentEval best) (Hook b (StopTrainingOnRewardThreshold reward_threshold)) w
     = Ok (Hook b (StopTrainingOnRewardThreshold reward_threshold), w, true)) /\
  (SFleb reward_threshold best = true ->
   _on_step (ParentEval best) (Hook b (StopTrainingOnRewardThreshold reward_threshold)) w
     = Ok (Hook b (StopTrainingOnRewardThreshold reward_threshold),
           emit_if (verbose b >? 0) (Print (MsgStopping best reward_threshold)) w,
           false)).
Proof.
  split; intros H; simpl.
  - rewrite H. rewrite andb_false_r. reflexivity.
  - rewrite (SFleb_not_ltb _ _ H). rewrite andb_true_r. reflexivity.
Qed.

(** C6. A [StopTrainingOnRewardThreshold] with no parent is built without
    error, and its [_on_step] raises [AssertionError], also when it is
    called through [__call__] or as a member of a [CallbackList]. *)
Theorem StopTrainingOnRewardThreshold_without_parent (reward_threshold : float)
    (v : Z) (b : BaseCallback) (m : model_ref) (w0 w : world) :
  StopTrainingOnRewardThreshold_init reward_threshold v
    = Hook (BaseCallback_init v) (StopTrainingOnRewardThreshold reward_threshold) /\
  _on_step NoParent (StopTrainingOnRewardThreshold_init reward_threshold v) w
    = Raise AssertionError /\
  _on_step NoParent (Hook b (StopTrainingOnRewardThreshold reward_threshold)) w
    = Raise AssertionError /\
  call NoParent
       (Hook (bind_model b m w0) (StopTrainingOnRewardThreshold reward_threshold)) w
    = Raise AssertionError /\
  call NoParent
       (Hook (bind_model b m w0)
             (CallbackList
                [Hook (bind_model b m w0)
                      (StopTrainingOnRewardThreshold reward_threshold)])) w
    = Raise AssertionError.
Proof. repeat split; reflexivity. Qed.

(** *** The frequencies *)

(** C10. With a frequency of zero, [_on_step] of a [CheckpointCallback]
    and of an [EvalCallback] raises [ZeroDivisionError], at whatever call
    and in whatever world, and so does [__call__] on a bound callback;
    with another frequency the remainder is defined. *)
Theorem zero_frequency_raises (pv : parent_view) (b : BaseCallback)
    (save_path : option string) (name_prefix : string) (c : option callback)
    (n_eval_episodes : Z) (best : float) (deterministic : bool)
    (eval_env : eval_environment) (best_model_save_path log_path : option string)
    (results : list (list float)) (timesteps : list Z) (m : model_ref) (w0 w : world) :
  let f := mkEval n_eval_episodes 0 best deterministic eval_env
                  best_model_save_path log_path results timesteps in
  _on_step pv (Hook b (CheckpointCallback 0 save_path name_prefix)) w
    = Raise ZeroDivisionError /\
  _on_step pv (Hook b (EvalCallback c f)) w = Raise ZeroDivisionError /\
  call pv (Hook (bind_model b m w0) (CheckpointCallback 0 save_path name_prefix)) w
    = Raise ZeroDivisionError /\
  call pv (Hook (bind_model b m w0) (EvalCallback c f)) w = Raise ZeroDivisionError /\
  forall n F : Z, py_mod n F = if F =? 0 then Raise ZeroDivisionError else Ok (n mod F).
Proof. repeat split; reflexivity. Qed.

(** *** Runs *)

Lemma run_app (pv : parent_view) (ts1 ts2 : list Z) (cb : callback) (w : world) :
  run pv cb w (ts1 ++ ts2) =
  ('(cb1, w1, rs1) <- run pv cb w ts1 ;;
   '(cb2, w2, rs2) <- run pv cb1 w1 ts2 ;;
   Ok (cb2, w2, rs1 ++ rs2)).
Proof.
  revert cb w. induction ts1 as [|t ts1 IH]; intros cb w; simpl.
  - destruct (run pv cb w ts2) as [[[cb2 w2] rs2]|e]; reflexivity.
  - destruct (call pv cb (train_to t w)) as [[[cb1 w1] r]|e]; simpl; [|reflexivity].
    rewrite IH.
    destruct (run pv cb1 w1 ts1) as [[[cb2 w2] rs1]|e]; simpl; [|reflexivity].
    destruct (run pv cb2 w2 ts2) as [[[cb3 w3] rs2]|e]; reflexivity.
Qed.

(** *** EveryNTimesteps *)

(** As long as the trainer's counter plus one stays below [n_steps], a new
    [EveryNTimesteps] returns [True] and leaves its child, its trigger and
    the trace alone. *)
Lemma EveryNTimesteps_quiet (pv : parent_view) (c : option callback) (n : Z)
    (m : model_ref) (ts : list Z) :
  Forall (fun t => t + 1 < n) ts ->
  forall (b : BaseCallback) (w : world),
    model b = Some m ->
    exists b',
      run pv (Hook b (EveryNTimesteps c n 0)) w ts
        = Ok (Hook b' (EveryNTimesteps c n 0),
              fold_left (fun w t => train_to t w) ts w,
              repeat true (List.length ts)) /\
      model b' = Some m.
Proof.
  induction 1 as [|t ts Ht _ IH]; intros b w Hm; simpl.
  - exists b. auto.
  - unfold tick. rewrite Hm. simpl.
    unfold EveryNTimesteps_on_step. simpl.
    replace (t + 1 - 0 >=? n) with false by (symmetry; rewrite Z.geb_leb; apply Z.leb_gt; lia).
    simpl.
    match goal with |- context [run pv (Hook ?b1 _) _ ts] =>
      destruct (IH b1 (train_to t w) eq_refl) as (b' & Hrun & Hm')
    end.
    rewrite Hrun. simpl. exists b'. auto.
Qed.

(** C7. [last_time_trigger] starts at 0.  When [num_timesteps -
    last_time_trigger >= n_steps], [_on_step] moves the trigger to
    [num_timesteps], calls the child and returns what it returns;
    otherwise it returns [True] and changes nothing.  On a new callback
    the child is called for the first time at the first call whose
    [num_timesteps] reaches [n_steps]. *)
Theorem EveryNTimesteps_on_step_interval (pv : parent_view) (b : BaseCallback)
    (c : option callback) (ch ch' : callback) (n last : Z) (w w' : world) (r : bool) :
  kind_of (EveryNTimesteps_init n c) = EveryNTimesteps c n 0 /\
  (num_timesteps b - last >= n ->
   _on_step pv (Hook b (EveryNTimesteps c n last)) w
     = ('(c', w1, r1) <- _on_event call ParentEveryN c w ;;
        Ok (Hook b (EveryNTimesteps c' n (num_timesteps b)), w1, r1)) /\
   (call ParentEveryN ch w = Ok (ch', w', r) ->
    _on_step pv (Hook b (EveryNTimesteps (Some ch) n last)) w
      = Ok (Hook b (EveryNTimesteps (Some ch') n (num_timesteps b)), w', r))) /\
  (num_timesteps b - last < n ->
   _on_step pv (Hook b (EveryNTimesteps c n last)) w
     = Ok (Hook b (EveryNTimesteps c n last), w, true)) /\
  (forall (m : model_ref) (ts : list Z) (t : Z),
     model b = Some m ->
     Forall (fun t => t + 1 < n) ts ->
     n <= t + 1 ->
     call ParentEveryN ch (train_to t (fold_left (fun w t => train_to t w) ts w))
       = Ok (ch', w', r) ->
     exists b',
       run pv (Hook b (EveryNTimesteps (Some ch) n 0)) w (ts ++ [t])
         = Ok (Hook b' (EveryNTimesteps (Some ch') n (t + 1)), w',
               repeat true (List.length ts) ++ [r])).
Proof.
  split; [reflexivity|]. split; [|split].
  - intros Hge.
    assert (Hb : (num_timesteps b - last >=? n) = true)
      by (rewrite Z.geb_leb; apply Z.leb_le; lia).
    split.
    + simpl. unfold EveryNTimesteps_on_step. rewrite Hb.
      destruct (_on_event call ParentEveryN c w) as [[[c' w1] r1]|e]; reflexivity.
    + intros Hc. simpl. unfold EveryNTimesteps_on_step. rewrite Hb. simpl.
      rewrite Hc. reflexivity.
  - intros Hlt. simpl. unfold EveryNTimesteps_on_step.
    replace (num_timesteps b - last >=? n) with false
      by (symmetry; rewrite Z.geb_leb; apply Z.leb_gt; lia).
    reflexivity.
  - intros m ts t Hm Hts Ht Hc.
    destruct (EveryNTimesteps_quiet pv (Some ch) n m ts Hts b w Hm) as (b1 & Hrun & Hm1).
    rewrite run_app, Hrun. simpl.
    unfold tick. rewrite Hm1. simpl.
    unfold EveryNTimesteps_on_step. simpl.
    replace (t + 1 - 0 >=? n) with true by (symmetry; rewrite Z.geb_leb; apply Z.leb_le; lia).
    simpl. rewrite Hc. simpl. eexists. reflexivity.
Qed.

(** *** EvalCallback *)

(** What a call of an [EvalCallback] that returns has done: no
    evaluation; or an evaluation whose mean is not above the best one,
    which changes neither the best mean nor the child and saves nothing;
    or an evaluation whose mean is above the best one and replaces it. *)
Lemma EvalCallback_call_inv (pv : parent_view) (b : BaseCallback) (c : option callback)
    (f : EvalFields) (w w' : world) (cb' : callback) (r : bool) :
  call pv (Hook b (EvalCallback c f)) w = Ok (cb', w', r) ->
  exists b' c' f',
    cb' = Hook b' (EvalCallback c' f') /\
    (((forall rs, ~ evaluates (Hook b (EvalCallback c f)) w rs) /\
      f' = f /\ c' = c /\ w' = w /\ r = true) \/
     (exists rs,
        evaluates (Hook b (EvalCallback c f)) w rs /\
        SFltb (best_mean_reward f) (np_mean rs) = false /\
        best_mean_reward f' = best_mean_reward f /\ c' = c /\ r = true /\
        exists es, trace w' = trace w ++ es /\ quiet es = true) \/
     (exists rs,
        evaluates (Hook b (EvalCallback c f)) w rs /\
        SFltb (best_mean_reward f) (np_mean rs) = true /\
        best_mean_reward f' = np_mean rs)).
Proof.
  rewrite call_unfold. unfold tick.
  destruct (model b) as [m|] eqn:Hm; [|discriminate].
  simpl. unfold EvalCallback_on_step, py_mod. simpl.
  destruct (eval_freq f =? 0) eqn:Hf; [discriminate|].
  apply Z.eqb_neq in Hf. simpl.
  destruct ((n_calls b + 1) mod eval_freq f =? 0) eqn:Hdue.
  2:{ simpl. intros H. injection H as <- <- <-.
      do 3 eexists. split; [reflexivity|]. left.
      apply Z.eqb_neq in Hdue.
      repeat split; try reflexivity.
      intros rs (_ & H0 & _). contradiction. }
  apply Z.eqb_eq in Hdue.
  destruct (evaluate_policy
              (emit (SyncEnvsNormalization (training_env b) (eval_env f)) w)
              (model b) (eval_env f) (n_eval_episodes f) (deterministic f))
    as [rs|e] eqn:Hev; rewrite Hm in Hev; rewrite Hev; [|discriminate].
  assert (Hevs : evaluates (Hook b (EvalCallback c f)) w rs)
    by (simpl; rewrite Hm; auto).
  simpl.
  destruct (log_path f) as [p|] eqn:Hlog; simpl.
  - destruct (SFltb (best_mean_reward f) (np_mean rs)) eqn:Hlt.
    + intros H.
      apply bind_Ok in H as ([[k' w1] r1] & H & H1). injection H1 as <- <- <-.
      apply bind_Ok in H as ([[[c' f'] w2] r2] & H & H1). injection H1 as <- <- <-.
      apply bind_Ok in H as (w6 & _ & H).
      do 3 eexists. split; [reflexivity|]. right. right.
      exists rs. repeat split; auto.
      destruct c as [c0|].
      * apply bind_Ok in H as ([[c1 w7] r7] & _ & H). injection H as _ <- _ _.
        reflexivity.
      * injection H as _ <- _ _. reflexivity.
    + simpl. intros H. injection H as <- <- <-.
      do 3 eexists. split; [reflexivity|]. right. left.
      exists rs. repeat split; auto.
      unfold emit_if.
      destruct (verbose b >? 0); simpl; rewrite <- ?app_assoc;
        eexists; (split; [reflexivity|reflexivity]).
  - destruct (SFltb (best_mean_reward f) (np_mean rs)) eqn:Hlt.
    + intros H.
      apply bind_Ok in H as ([[k' w1] r1] & H & H1). injection H1 as <- <- <-.
      apply bind_Ok in H as ([[[c' f'] w2] r2] & H & H1). injection H1 as <- <- <-.
      apply bind_Ok in H as (w6 & _ & H).
      do 3 eexists. split; [reflexivity|]. right. right.
      exists rs. repeat split; auto.
      destruct c as [c0|].
      * apply bind_Ok in H as ([[c1 w7] r7] & _ & H). injection H as _ <- _ _.
        reflexivity.
      * injection H as _ <- _ _. reflexivity.
    + simpl. intros H. injection H as <- <- <-.
      do 3 eexists. split; [reflexivity|]. right. left.
      exists rs. repeat split; auto.
      unfold emit_if.
      destruct (verbose b >? 0); simpl; rewrite <- ?app_assoc;
        eexists; (split; [reflexivity|reflexivity]).
Qed.

Lemma best_of_Some (cb : callback) (x : float) :
  best_of cb = Some x ->
  exists b c f, cb = Hook b (EvalCallback c f) /\ best_mean_reward f = x.
Proof.
  destruct cb as [b k]. unfold best_of. simpl.
  destruct k; try discriminate. intros H. injection H as <-. eauto.
Qed.

(** A call leaves the best mean as it is or moves it up. *)
Lemma call_best_of (pv : parent_view) (cb cb' : callback) (w w' : world) (r : bool)
    (x : float) :
  best_of cb = Some x ->
  call pv cb w = Ok (cb', w', r) ->
  exists y, best_of cb' = Some y /\ (y = x \/ SFltb x y = true).
Proof.
  intros Hx Hc. apply best_of_Some in Hx as (b & c & f & -> & <-).
  apply EvalCallback_call_inv in Hc
    as (b' & c' & f' & -> & [(_ & -> & _)|[(rs & _ & _ & Hb & _)|(rs & _ & Hlt & Hb)]]);
    unfold best_of; simpl; eexists; (split; [reflexivity|]).
  - left. reflexivity.
  - left. exact Hb.
  - right. rewrite Hb. exact Hlt.
Qed.

Lemma later_best_of (pv : parent_view) (cb cb' : callback) :
  later pv cb cb' ->
  forall x, best_of cb = Some x ->
  exists y, best_of cb' = Some y /\ (y = x \/ SFltb x y = true).
Proof.
  induction 1 as [cb|cb cb1 cb' w w1 r Hc _ IH]; intros x Hx.
  - exists x. auto.
  - destruct (call_best_of _ _ _ _ _ _ _ Hx Hc) as (y & Hy & Hxy).
    destruct (IH y Hy) as (z & Hz & Hyz).
    exists z. split; [exact Hz|].
    destruct Hxy as [->|Hxy]; [exact Hyz|].
    destruct Hyz as [->|Hyz]; [right; exact Hxy|].
    right. exact (SFltb_trans _ _ _ Hxy Hyz).
Qed.

(** After an evaluation of mean [np_mean rs], the best mean is not below
    that mean. *)
Lemma call_covers_mean (pv : parent_view) (cb cb' : callback) (w w' : world) (r : bool)
    (rs : list float) :
  evaluates cb w rs ->
  call pv cb w = Ok (cb', w', r) ->
  exists y, best_of cb' = Some y /\ SFltb y (np_mean rs) = false.
Proof.
  intros Hev Hc. destruct cb as [b k]. destruct k; try contradiction.
  pose proof Hev as (_ & _ & Hrs).
  apply EvalCallback_call_inv in Hc
    as (b' & c' & f' & -> & [(Hno & _)|[(rs1 & Hev1 & Hlt & Hb & _)|(rs1 & Hev1 & _ & Hb)]]).
  - destruct (Hno rs Hev).
  - destruct Hev1 as (_ & _ & Hrs1). rewrite Hrs in Hrs1. injection Hrs1 as <-.
    unfold best_of. simpl. eexists. split; [reflexivity|]. rewrite Hb. exact Hlt.
  - destruct Hev1 as (_ & _ & Hrs1). rewrite Hrs in Hrs1. injection Hrs1 as <-.
    unfold best_of. simpl. eexists. split; [reflexivity|]. rewrite Hb.
    apply SFltb_irrefl.
Qed.

(** C4. [best_mean_reward] starts at minus infinity; over any number of
    calls it stays as it is or moves up; a call changes it only to the
    mean of an evaluation that is strictly above it; and an evaluation
    whose mean equals the mean of an earlier one leaves it unchanged,
    saves no model and returns [True]. *)
Theorem EvalCallback_best_mean_reward_monotone :
  (forall (eval_env : eval_environment) (child : option callback)
          (n_eval_episodes eval_freq : Z) (log_path best_model_save_path : option string)
          (deterministic : bool) (verbose : Z) (cb : callback),
     EvalCallback_init eval_env child n_eval_episodes eval_freq log_path
                       best_model_save_path deterministic verbose = Ok cb ->
     best_of cb = Some neg_inf) /\
  (forall (pv : parent_view) (cb cb' : callback) (x : float),
     best_of cb = Some x ->
     later pv cb cb' ->
     exists y, best_of cb' = Some y /\ (y = x \/ SFltb x y = true)) /\
  (forall (pv : parent_view) (cb cb' : callback) (w w' : world) (r : bool) (x y : float),
     best_of cb = Some x ->
     call pv cb w = Ok (cb', w', r) ->
     best_of cb' = Some y ->
     y <> x ->
     exists rs, evaluates cb w rs /\ SFltb x (np_mean rs) = true /\ y = np_mean rs) /\
  (forall (pv : parent_view) (cb0 cb1 cb2 cb3 : callback) (w0 w1 w2 w3 : world)
          (r1 r3 : bool) (rs0 rs2 : list float),
     evaluates cb0 w0 rs0 ->
     call pv cb0 w0 = Ok (cb1, w1, r1) ->
     later pv cb1 cb2 ->
     evaluates cb2 w2 rs2 ->
     SFeqb (np_mean rs0) (np_mean rs2) = true ->
     call pv cb2 w2 = Ok (cb3, w3, r3) ->
     best_of cb3 = best_of cb2 /\ r3 = true /\
     exists es, trace w3 = trace w2 ++ es /\ quiet es = true).
Proof.
  split; [|split; [|split]].
  - intros eval_env child n_eval_episodes eval_freq log_path best_model_save_path
           deterministic verbose cb.
    unfold EvalCallback_init.
    destruct (match eval_env with VecEnv _ num_envs => num_envs =? 1 | GymEnv _ => true end);
      [|discriminate].
    intros H. injection H as <-. reflexivity.
  - intros pv cb cb' x Hx Hl. exact (later_best_of _ _ _ Hl x Hx).
  - intros pv cb cb' w w' r x y Hx Hc Hy Hne.
    apply best_of_Some in Hx as (b & c & f & -> & <-).
    apply EvalCallback_call_inv in Hc
      as (b' & c' & f' & -> & [(_ & -> & _)|[(rs & _ & _ & Hb & _)|(rs & Hev & Hlt & Hb)]]);
      unfold best_of in Hy; simpl in Hy; injection Hy as <-.
    + contradiction Hne. reflexivity.
    + contradiction Hne.
    + exists rs. auto.
  - intros pv cb0 cb1 cb2 cb3 w0 w1 w2 w3 r1 r3 rs0 rs2 Hev0 Hc0 Hl Hev2 Heq Hc2.
    destruct (call_covers_mean _ _ _ _ _ _ _ Hev0 Hc0) as (y1 & Hy1 & Hcov1).
    destruct (later_best_of _ _ _ Hl y1 Hy1) as (y2 & Hy2 & Hmono).
    assert (Hcov2 : SFltb y2 (np_mean rs2) = false).
    { destruct (SFltb y2 (np_mean rs2)) eqn:Hlt; [|reflexivity].
      pose proof (SFltb_eqb_r _ _ _ Hlt Heq) as Hlt0.
      destruct Hmono as [->|Hmono]; [congruence|].
      pose proof (SFltb_trans _ _ _ Hmono Hlt0). congruence. }
    apply best_of_Some in Hy2 as (b & c & f & -> & <-).
    pose proof Hev2 as (_ & _ & Hrs).
    apply EvalCallback_call_inv in Hc2
      as (b' & c' & f' & -> &
          [(Hno & _)|[(rs & _ & _ & Hb & _ & -> & Hes)|(rs & Hev & Hlt & _)]]).
    + destruct (Hno rs2 Hev2).
    + unfold best_of. simpl. rewrite Hb. auto.
    + destruct Hev as (_ & _ & Hrs1). rewrite Hrs in Hrs1. injection Hrs1 as <-.
      congruence.
Qed.

(** *** CheckpointCallback *)

Lemma div_step (n F : Z) :
  0 < F -> (n + 1) / F = n / F + (if (n + 1) mod F =? 0 then 1 else 0).
Proof.
  intros HF.
  pose proof (Z.div_mod n F ltac:(lia)) as Hn.
  pose proof (Z.mod_pos_bound n F HF) as Hr.
  destruct (Z.eq_dec (n mod F) (F - 1)) as [Hlast|Hlast].
  - assert (Hq : (n + 1) / F = n / F + 1)
      by (symmetry; apply (Z.div_unique_pos _ _ _ 0); lia).
    assert (Hm : (n + 1) mod F = 0)
      by (symmetry; apply (Z.mod_unique_pos _ _ (n / F + 1)); lia).
    rewrite Hq, Hm. reflexivity.
  - assert (Hq : (n + 1) / F = n / F)
      by (symmetry; apply (Z.div_unique_pos _ _ _ (n mod F + 1)); lia).
    assert (Hm : (n + 1) mod F = n mod F + 1)
      by (symmetry; apply (Z.mod_unique_pos _ _ (n / F)); lia).
    rewrite Hq, Hm.
    destruct (Z.eqb_spec (n mod F + 1) 0); lia.
Qed.

Lemma numbered_app (ts1 ts2 : list Z) (n0 : Z) :
  numbered n0 (ts1 ++ ts2) =
  numbered n0 ts1 ++ numbered (n0 + Z.of_nat (List.length ts1)) ts2.
Proof.
  revert n0. induction ts1 as [|t ts1 IH]; intros n0.
  - simpl. rewrite Z.add_0_r. reflexivity.
  - cbn [numbered app List.length]. rewrite IH. do 3 f_equal. lia.
Qed.

(** The calls that save are the calls [F], [2F], ..., up to the last
    multiple of [F] that the run reaches. *)
Lemma checkpoint_calls_numbers (F : Z) (ts : list Z) :
  0 < F ->
  map fst (checkpoint_calls F 0 ts) =
  map (fun i => F * Z.of_nat i) (seq 1 (Z.to_nat (Z.of_nat (List.length ts) / F))).
Proof.
  intros HF. unfold checkpoint_calls.
  induction ts as [|t ts IH] using rev_ind.
  - reflexivity.
  - rewrite numbered_app, filter_app, map_app, IH, length_app.
    cbn [List.length numbered filter fst].
    replace (Z.of_nat (List.length ts + 1)) with (Z.of_nat (List.length ts) + 1) by lia.
    rewrite (div_step _ F HF).
    set (T := Z.of_nat (List.length ts)).
    assert (Hq : 0 <= T / F) by (apply Z.div_pos; lia).
    replace (0 + T + 1) with (T + 1) by lia.
    destruct (Z.eqb_spec ((T + 1) mod F) 0) as [Hm|Hm].
    + replace (Z.to_nat (T / F + 1)) with (S (Z.to_nat (T / F))) by lia.
      rewrite seq_S, map_app. cbn [map fst]. do 2 f_equal.
      pose proof (Z.div_mod (T + 1) F ltac:(lia)) as Hd.
      rewrite (div_step _ F HF), Hm in Hd. simpl in Hd. lia.
    + rewrite Z.add_0_r, app_nil_r. reflexivity.
Qed.

(** One call of a bound [CheckpointCallback] with a directory. *)
Lemma CheckpointCallback_call (pv : parent_view) (b : BaseCallback) (F : Z)
    (dir name_prefix : string) (m : model_ref) (w : world) :
  F <> 0 ->
  model b = Some m ->
  exists b' es,
    call pv (Hook b (CheckpointCallback F (Some dir) name_prefix)) w
      = Ok (Hook b' (CheckpointCallback F (Some dir) name_prefix), emit_all es w, true) /\
    model b' = Some m /\
    n_calls b' = n_calls b + 1 /\
    filter is_save es =
      (if (n_calls b + 1) mod F =? 0
       then [Save m (checkpoint_path dir name_prefix (num_timesteps_of w m + 1))]
       else []).
Proof.
  intros HF Hm. rewrite call_unfold. unfold tick. rewrite Hm. simpl.
  unfold CheckpointCallback_on_step, py_mod. simpl.
  destruct (Z.eqb_spec F 0) as [|_]; [contradiction|]. simpl.
  destruct ((n_calls b + 1) mod F =? 0); simpl.
  - unfold emit_if. destruct (verbose b >? 1); simpl.
    + eexists.
      exists [Save m (checkpoint_path dir name_prefix (num_timesteps_of w m + 1));
              Print (MsgSavingCheckpoint
                       (checkpoint_path dir name_prefix (num_timesteps_of w m + 1)))].
      unfold emit, emit_all. simpl.
      rewrite <- app_assoc. simpl. repeat split; reflexivity.
    + eexists.
      exists [Save m (checkpoint_path dir name_prefix (num_timesteps_of w m + 1))].
      repeat split; reflexivity.
  - eexists. exists []. unfold emit_all. rewrite app_nil_r.
    destruct w; repeat split; reflexivity.
Qed.

Lemma CheckpointCallback_run (pv : parent_view) (F : Z) (dir name_prefix : string)
    (m : model_ref) (ts : list Z) :
  F <> 0 ->
  forall (b : BaseCallback) (w : world),
    model b = Some m ->
    exists b' w' es,
      run pv (Hook b (CheckpointCallback F (Some dir) name_prefix)) w ts
        = Ok (Hook b' (CheckpointCallback F (Some dir) name_prefix), w',
              repeat true (List.length ts)) /\
      trace w' = trace w ++ es /\
      filter is_save es =
        map (fun c => Save m (checkpoint_path dir name_prefix (snd c + 1)))
            (checkpoint_calls F (n_calls b) ts).
Proof.
  intros HF. induction ts as [|t ts IH]; intros b w Hm.
  - exists b, w, []. simpl. rewrite app_nil_r. auto.
  - destruct (CheckpointCallback_call pv b F dir name_prefix m (train_to t w) HF Hm)
      as (b1 & es1 & Hc & Hm1 & Hn1 & Hs1).
    destruct (IH b1 (emit_all es1 (train_to t w)) Hm1) as (b' & w' & es & Hrun & Htr & Hs).
    exists b', w', (es1 ++ es).
    cbn [run]. rewrite Hc. simpl. rewrite Hrun. simpl.
    split; [reflexivity|]. split.
    + rewrite Htr. simpl. rewrite app_assoc. reflexivity.
    + rewrite filter_app, Hs, Hs1, Hn1. unfold checkpoint_calls.
      cbn [numbered filter fst]. simpl num_timesteps_of.
      destruct ((n_calls b + 1) mod F =? 0); reflexivity.
Qed.

Lemma checkpoint_path_literal (dir name_prefix : string) (t : Z) :
  (String.length dir =? 0)%nat || endswith_sep dir = false ->
  startswith_sep name_prefix = false ->
  checkpoint_path dir name_prefix t
    = (dir ++ "/" ++ name_prefix ++ "_" ++ str_int t ++ "_steps")%string.
Proof.
  intros Hd Hp. unfold checkpoint_path, os_path_join. rewrite Hd.
  replace (startswith_sep (name_prefix ++ "_" ++ str_int t ++ "_steps")) with false;
    [reflexivity|].
  destruct name_prefix as [|a rest]; [reflexivity|]. symmetry. exact Hp.
Qed.

(** C8. A new [CheckpointCallback] with a positive [save_freq], bound to
    a model: over any run every call returns [True]; the saves are those of
    the calls whose number is a multiple of [save_freq], that is the calls
    [F], [2F], ..., so [floor(T / F)] of them over [T] calls; and each
    goes to [os.path.join(save_path, f"{name_prefix}_{num_timesteps}_steps")],
    which is [save_path/name_prefix_num_timesteps_steps] for a directory
    that does not end in a slash and a prefix that does not start with
    one. *)
Theorem CheckpointCallback_saves_every_save_freq (pv : parent_view) (b : BaseCallback)
    (F : Z) (dir name_prefix : string) (m : model_ref) (w : world) (ts : list Z) :
  0 < F ->
  model b = Some m ->
  n_calls b = 0 ->
  exists b' w' es,
    run pv (Hook b (CheckpointCallback F (Some dir) name_prefix)) w ts
      = Ok (Hook b' (CheckpointCallback F (Some dir) name_prefix), w',
            repeat true (List.length ts)) /\
    trace w' = trace w ++ es /\
    filter is_save es =
      map (fun c => Save m (checkpoint_path dir name_prefix (snd c + 1)))
          (checkpoint_calls F 0 ts) /\
    map fst (checkpoint_calls F 0 ts) =
      map (fun i => F * Z.of_nat i) (seq 1 (Z.to_nat (Z.of_nat (List.length ts) / F))) /\
    List.length (filter is_save es) = Z.to_nat (Z.of_nat (List.length ts) / F) /\
    ((String.length dir =? 0)%nat || endswith_sep dir = false ->
     startswith_sep name_prefix = false ->
     forall t, checkpoint_path dir name_prefix t
               = (dir ++ "/" ++ name_prefix ++ "_" ++ str_int t ++ "_steps")%string).
Proof.
  intros HF Hm Hn.
  destruct (CheckpointCallback_run pv F dir name_prefix m ts ltac:(lia) b w Hm)
    as (b' & w' & es & Hrun & Htr & Hs).
  rewrite Hn in Hs.
  pose proof (checkpoint_calls_numbers F ts HF) as Hnum.
  exists b', w', es. repeat split; try assumption.
  - rewrite Hs, length_map.
    rewrite <- (length_map fst), Hnum, length_map, length_seq. reflexivity.
  - intros Hd Hp t. exact (checkpoint_path_literal dir name_prefix t Hd Hp).
Qed.

End Properties.

(** ** The properties on concrete objects *)

Section Instances.

#[local] Existing Instance demo.

(** The scenario of twenty calls: a [CheckpointCallback] of frequency 10
    and an [EveryNTimesteps] of interval 5 in one [CallbackList]. *)
Example twenty_calls :
  saves_and_steps
    (run NoParent (Hook (bound 0 0) (CallbackList [checkpoint 10; every 5])) demo_world
         (map Z.of_nat (seq 0 20)))
  = ([Save 0%nat "logs/rl_model_10_steps"; Save 0%nat "logs/rl_model_20_steps"], 4%nat).
Proof. vm_compute. reflexivity. Qed.

Lemma CallbackList_on_step_conjunction_witness :
  fires demo_world [refuse 0; stepper 0 0 0] [refuse 1; stepper 1 1 1] [false; true]
        (emit (UserEvent "_on_step") demo_world) /\
  _on_step NoParent (Hook (bound 1 1) (CallbackList [refuse 0; stepper 0 0 0])) demo_world
    = Ok (Hook (bound 1 1) (CallbackList [refuse 1; stepper 1 1 1]),
          emit (UserEvent "_on_step") demo_world, false) /\
  Forall2 (fun c c' => n_calls (base_of c') = n_calls (base_of c) + 1)
          [refuse 0; stepper 0 0 0] [refuse 1; stepper 1 1 1].
Proof.
  assert (H : fires demo_world [refuse 0; stepper 0 0 0] [refuse 1; stepper 1 1 1]
                    [false; true] (emit (UserEvent "_on_step") demo_world)).
  { eapply fires_cons; [reflexivity|].
    eapply fires_cons; [reflexivity|]. apply fires_nil. }
  pose proof (CallbackList_on_step_conjunction NoParent (bound 1 1) _ _ _ _ _ H)
    as (H1 & H2 & _).
  exact (conj H (conj H1 H2)).
Defined.

Lemma call_counts_then_delegates_witness :
  model (base_of (stepper 0 0 0)) = Some 0%nat /\
  call NoParent (stepper 0 0 0) demo_world
    = _on_step NoParent (stepper 1 1 0) demo_world.
Proof.
  split; [reflexivity|].
  exact (proj1 (call_counts_then_delegates NoParent (stepper 0 0 0) demo_world 0%nat
                  eq_refl)).
Defined.

Lemma StopTrainingOnRewardThreshold_on_step_threshold_witness :
  SFltb neg_inf one = true /\
  _on_step (ParentEval neg_inf) (Hook (bound 1 1) (StopTrainingOnRewardThreshold one))
           demo_world
    = Ok (Hook (bound 1 1) (StopTrainingOnRewardThreshold one), demo_world, true) /\
  SFleb one one = true /\
  _on_step (ParentEval one) (Hook (bound 1 1) (StopTrainingOnRewardThreshold one))
           demo_world
    = Ok (Hook (bound 1 1) (StopTrainingOnRewardThreshold one), demo_world, false).
Proof.
  split; [reflexivity|].
  split;
    [exact (proj1 (StopTrainingOnRewardThreshold_on_step_threshold
                     (bound 1 1) one neg_inf demo_world) eq_refl)|].
  split; [reflexivity|].
  exact (proj2 (StopTrainingOnRewardThreshold_on_step_threshold
                  (bound 1 1) one one demo_world) eq_refl).
Defined.

Lemma EveryNTimesteps_on_step_interval_witness :
  Forall (fun t => t + 1 < 3) [0; 1] /\
  exists b',
    run NoParent (every 3) demo_world ([0; 1] ++ [2])
      = Ok (Hook b' (EveryNTimesteps (Some (stepper 1 3 1)) 3 3),
            emit (UserEvent "_on_step") (train_to 2 demo_world),
            repeat true 2 ++ [true]).
Proof.
  assert (H : Forall (fun t => t + 1 < 3) [0; 1])
    by (repeat constructor; reflexivity).
  split; [exact H|].
  refine (proj2 (proj2 (proj2
            (EveryNTimesteps_on_step_interval NoParent (bound 0 0) None
               (stepper 0 0 0) (stepper 1 3 1) 3 0 demo_world
               (emit (UserEvent "_on_step") (train_to 2 demo_world)) true)))
            0%nat [0; 1] 2 eq_refl H _ eq_refl).
  discriminate.
Defined.

Lemma EvalCallback_best_mean_reward_monotone_witness :
  exists w1 w3,
    evaluates (evaluator 0 0 neg_inf) demo_world [one] /\
    call NoParent (evaluator 0 0 neg_inf) demo_world = Ok (evaluator 1 1 one, w1, true) /\
    filter is_save (trace w1) = [Save 0%nat "best/best_model"] /\
    evaluates (evaluator 1 1 one) w1 [one] /\
    call NoParent (evaluator 1 1 one) w1 = Ok (evaluator 2 1 one, w3, true) /\
    best_of (evaluator 2 1 one) = best_of (evaluator 1 1 one) /\
    exists es, trace w3 = trace w1 ++ es /\ quiet es = true.
Proof.
  eexists. eexists.
  assert (H0 : evaluates (evaluator 0 0 neg_inf) demo_world [one])
    by (repeat split; discriminate).
  split; [exact H0|].
  split; [reflexivity|].
  split; [reflexivity|].
  match goal with |- evaluates ?cb ?w ?rs /\ _ =>
    assert (H2 : evaluates cb w rs) by (repeat split; discriminate)
  end.
  split; [exact H2|].
  split; [reflexivity|].
  destruct (proj2 (proj2 (proj2 EvalCallback_best_mean_reward_monotone))
              NoParent _ _ _ _ _ _ _ _ _ _ _ _
              H0 eq_refl (later_refl _ _) H2 eq_refl eq_refl)
    as (Hb & _ & Hes).
  exact (conj Hb Hes).
Defined.

Lemma CheckpointCallback_saves_every_save_freq_witness :
  0 < 2 /\
  exists b' w' es,
    run NoParent (checkpoint 2) demo_world [0; 1; 2; 3; 4]
      = Ok (Hook b' (CheckpointCallback 2 (Some "logs"%string) "rl_model"%string), w',
            repeat true 5) /\
    trace w' = trace demo_world ++ es /\
    filter is_save es =
      map (fun c => Save 0%nat (checkpoint_path "logs" "rl_model" (snd c + 1)))
          (checkpoint_calls 2 0 [0; 1; 2; 3; 4]) /\
    List.length (filter is_save es) = 2%nat.
Proof.
  split; [reflexivity|].
  destruct (CheckpointCallback_saves_every_save_freq NoParent (bound 0 0) 2
              "logs" "rl_model" 0%nat demo_world [0; 1; 2; 3; 4]
              eq_refl eq_refl eq_refl)
    as (b' & w' & es & Hrun & Htr & Hs & _ & Hlen & _).
  exists b', w', es. exact (conj Hrun (conj Htr (conj Hs Hlen))).
Defined.

End Instances.

(** * The rest of the code *)

(** ** Trees of callbacks *)

Section Trees.

Context {E : Collaborators}.

(** Induction on a callback, with the property for all its children. *)
Lemma callback_induction (P : callback -> Prop) :
  (forall b k, Forall P (children k) -> P (Hook b k)) -> forall cb, P cb.
Proof.
  intros H. fix IH 1. intros [b k]. apply H.
  destruct k as [cs| | |[c|] f| |[c|] n l|]; simpl; try constructor;
    try apply IH; try constructor.
  revert cs. fix IHl 1. intros [|c cs]; constructor; [apply IH|apply IHl].
Qed.

Lemma every_hook_inv (P : BaseCallback -> kind callback -> Prop) (b : BaseCallback)
    (k : kind callback) :
  every_hook P (Hook b k) -> P b k /\ Forall (every_hook P) (children k).
Proof. inversion 1; subst. auto. Qed.

Lemma every_hook_impl (P Q : BaseCallback -> kind callback -> Prop) :
  (forall b k, P b k -> Q b k) ->
  forall cb, every_hook P cb -> every_hook Q cb.
Proof.
  intros HPQ. induction cb as [b k IH] using callback_induction.
  intros H. apply every_hook_inv in H as (Hb & Hk).
  constructor; [auto|].
  rewrite Forall_forall in *. auto.
Qed.

(** *** The world only grows *)

Lemma emit_all_nil (w : world) : emit_all [] w = w.
Proof. destruct w. unfold emit_all. simpl. rewrite app_nil_r. reflexivity. Qed.

Lemma emit_all_app (es1 es2 : list event) (w : world) :
  emit_all es2 (emit_all es1 w) = emit_all (es1 ++ es2) w.
Proof. unfold emit_all. simpl. rewrite app_assoc. reflexivity. Qed.

Lemma extends_refl (w : world) : extends w w.
Proof. exists []. symmetry. apply emit_all_nil. Qed.

Lemma extends_trans (w1 w2 w3 : world) : extends w1 w2 -> extends w2 w3 -> extends w1 w3.
Proof. intros (es1 & ->) (es2 & ->). exists (es1 ++ es2). apply emit_all_app. Qed.

Lemma extends_emit_all (es : list event) (w w' : world) :
  extends w w' -> extends w (emit_all es w').
Proof. intros H. apply (extends_trans _ _ _ H). exists es. reflexivity. Qed.

Lemma extends_emit (e : event) (w w' : world) : extends w w' -> extends w (emit e w').
Proof. apply extends_emit_all. Qed.

Lemma extends_emit_if (c : bool) (e : event) (w w' : world) :
  extends w w' -> extends w (emit_if c e w').
Proof. intros H. destruct c; simpl; [apply extends_emit|]; exact H. Qed.

Lemma extends_makedirs (f : string -> string) (p : option string) (w w' : world) :
  extends w w' -> extends w (makedirs_if_set f p w').
Proof. intros H. destruct p; simpl; [apply extends_emit|]; exact H. Qed.

Lemma extends_trainer (w w' : world) :
  extends w w' ->
  num_timesteps_of w' = num_timesteps_of w /\
  get_env w' = get_env w /\
  Logger_CURRENT w' = Logger_CURRENT w /\
  exists es, trace w' = trace w ++ es.
Proof. intros (es & ->). simpl. eauto. Qed.

Create HintDb grows.

#[local] Hint Resolve extends_refl extends_emit_all extends_emit extends_emit_if
  extends_makedirs : grows.

Lemma fire_all_extends (cs : list callback) :
  Forall (fun c => forall pv w c' w' r,
            call pv c w = Ok (c', w', r) ->
            extends w w' /\ model (base_of c') = model (base_of c)) cs ->
  forall w acc cs' w' r,
    fire_all call cs w acc = Ok (cs', w', r) ->
    extends w w' /\ Forall2 (fun c c' => model (base_of c') = model (base_of c)) cs cs'.
Proof.
  induction 1 as [|c cs Hc _ IH]; intros w acc cs' w' r; simpl; intros H.
  - injection H as <- <- <-. split; [apply extends_refl|constructor].
  - apply bind_Ok in H as ([[c1 w1] r1] & H1 & H).
    apply bind_Ok in H as ([[rest w2] k] & H2 & H).
    injection H as <- <- <-.
    apply Hc in H1 as (He1 & Hm1). apply IH in H2 as (He2 & Hm2).
    split; [exact (extends_trans _ _ _ He1 He2)|constructor; assumption].
Qed.

(** A call that returns has only added requests to the world, and the
    callback is bound to the model it was bound to. *)
Lemma call_extends (cb : callback) :
  forall pv w cb' w' r,
    call pv cb w = Ok (cb', w', r) ->
    extends w w' /\ model (base_of cb') = model (base_of cb).
Proof.
  induction cb as [b k IH] using callback_induction.
  intros pv w cb' w' r. rewrite call_unfold. unfold tick.
  destruct (model b) as [m|] eqn:Hm; [|discriminate]. simpl bind.
  intros H. apply bind_Ok in H as ([[k' w1] r1] & H & H1).
  injection H1 as <- <- <-. simpl base_of. split; [|simpl; auto].
  destruct k as [cs|F p pre|g|c f|thr|c n l|o s]; simpl in H.
  - apply bind_Ok in H as ([[cs' w2] r2] & H & H1). injection H1 as _ <- _.
    exact (proj1 (fire_all_extends cs IH _ _ _ _ _ H)).
  - apply bind_Ok in H as ([w2 r2] & H & H1). injection H1 as _ <- _.
    unfold CheckpointCallback_on_step, py_mod in H.
    destruct (F =? 0); [discriminate|]. simpl in H.
    destruct (_ =? 0) in H.
    + destruct p as [d|]; [|discriminate]. simpl in H. injection H as <- _.
      auto with grows.
    + injection H as <- _. auto with grows.
  - apply bind_Ok in H as ([w2 r2] & H & H1). injection H1 as _ <- _.
    destruct g as [g|]; simpl in H.
    + apply bind_Ok in H as ([r3 es] & _ & H). injection H as <- _. auto with grows.
    + injection H as <- _. auto with grows.
  - apply bind_Ok in H as ([[[c' f'] w2] r2] & H & H1). injection H1 as _ <- _.
    unfold EvalCallback_on_step, py_mod in H.
    destruct (eval_freq f =? 0); [discriminate|]. simpl in H.
    destruct (_ =? 0) in H; [|injection H as _ _ <- _; auto with grows].
    apply bind_Ok in H as (rs & _ & H).
    set (w3 := emit (EvaluatePolicy _ _ _ _) (emit (SyncEnvsNormalization _ _) w)) in H.
    assert (H3 : extends w w3) by (subst w3; auto with grows).
    destruct (log_path f) as [lp|]; simpl in H;
      (destruct (SFltb _ _) in H;
       [|injection H as _ _ <- _; auto with grows]);
      apply bind_Ok in H as (w6 & H6 & H);
      (assert (He6 : extends w w6)
         by (destruct (best_model_save_path _) in H6; simpl in H6;
             [injection H6 as <-|injection H6 as <-]; auto 6 with grows));
      (destruct c as [c0|];
       [apply bind_Ok in H as ([[c1 w7] r7] & H7 & H); injection H as _ _ <- _;
        apply bind_Ok in H7 as ([[c2 w8] r8] & H8 & H7); injection H7 as _ <- _;
        apply Forall_inv in IH; apply IH in H8 as (He8 & _);
        exact (extends_trans _ _ _ He6 He8)
       |injection H as _ _ <- _; exact He6]).
  - apply bind_Ok in H as ([w2 r2] & H & H1). injection H1 as _ <- _.
    destruct pv; simpl in H; try discriminate. injection H as <- _. auto with grows.
  - apply bind_Ok in H as ([[[c' l'] w2] r2] & H & H1). injection H1 as _ <- _.
    unfold EveryNTimesteps_on_step in H.
    destruct (_ >=? _) in H; [|injection H as _ _ <- _; auto with grows].
    apply bind_Ok in H as ([[c1 w7] r7] & H7 & H). injection H as _ _ <- _.
    destruct c as [c0|]; simpl in H7.
    + apply bind_Ok in H7 as ([[c2 w8] r8] & H8 & H7). injection H7 as _ <- _.
      apply Forall_inv in IH. apply IH in H8 as (He8 & _). exact He8.
    + injection H7 as _ <- _. auto with grows.
  - apply bind_Ok in H as ([[s' w2] r2] & H & H1). injection H1 as _ <- _.
    unfold UserCallback_on_step in H.
    apply bind_Ok in H as ([[r3 s3] es] & _ & H). injection H as _ <- _.
    auto with grows.
Qed.

(** *** The lifecycle methods on a tree *)

Lemma bound_to_extends (m : model_ref) (w w1 : world) :
  extends w w1 ->
  forall cb, every_hook (bound_to m w1) cb -> every_hook (bound_to m w) cb.
Proof.
  intros H. apply extends_trainer in H as (_ & He & Hl & _).
  apply every_hook_impl. unfold bound_to. intros b k. rewrite He, Hl. auto.
Qed.

Lemma for_each_spec (f : callback -> world -> result (callback * world))
    (Q : world -> callback -> Prop) (I : callback -> Prop) (cs : list callback) :
  (forall w w1 c, extends w w1 -> Q w1 c -> Q w c) ->
  Forall (fun c => forall w c' w',
            f c w = Ok (c', w') -> extends w w' /\ Q w c' /\ I c) cs ->
  forall w cs' w',
    for_each f cs w = Ok (cs', w') ->
    extends w w' /\ Forall (Q w) cs' /\ Forall I cs.
Proof.
  intros HQ. induction 1 as [|c cs Hc _ IH]; intros w cs' w'; simpl; intros H.
  - injection H as <- <-. auto using extends_refl.
  - apply bind_Ok in H as ([c1 w1] & H1 & H).
    apply bind_Ok in H as ([rest w2] & H2 & H). injection H as <- <-.
    apply Hc in H1 as (He1 & Hq1 & Hi1). apply IH in H2 as (He2 & Hq2 & Hi2).
    split; [exact (extends_trans _ _ _ He1 He2)|]. split; constructor; auto.
    revert Hq2. apply Forall_impl. intros c0. apply HQ. exact He1.
Qed.

Lemma on_child_spec (f : callback -> world -> result (callback * world))
    (Q : world -> callback -> Prop) (I : callback -> Prop) (c : option callback)
    (w w' : world) (c' : option callback) :
  Forall (fun c => forall w c' w',
            f c w = Ok (c', w') -> extends w w' /\ Q w c' /\ I c)
         (match c with Some c0 => [c0] | None => [] end) ->
  on_child f c w = Ok (c', w') ->
  exists c0 c1, c = Some c0 /\ c' = Some c1 /\ extends w w' /\ Q w c1 /\ I c0.
Proof.
  destruct c as [c0|]; simpl; [|discriminate]. intros Hc H.
  apply bind_Ok in H as ([c1 w1] & H1 & H). injection H as <- <-.
  apply Forall_inv in Hc. apply Hc in H1 as (He & Hq & Hi).
  exists c0, c1. auto.
Qed.

Ltac tree_done :=
  split; [eauto using extends_trans with grows|];
  split;
    (constructor; [first [assumption | exact I]|];
     simpl; first [assumption | repeat (first [assumption | constructor])]).

(** X1. When [init_callback] returns, the world has only grown, the
    callback and every callback below it are bound to the model it was
    given, with that model's environment and the current logger, and every
    [EventCallback] of the tree has a child. *)
Theorem init_callback_binds_tree (m : model_ref) (cb cb' : callback) (w w' : world) :
  init_callback cb m w = Ok (cb', w') ->
  extends w w' /\ every_hook (bound_to m w) cb' /\ every_hook has_child cb.
Proof.
  revert w cb' w'. induction cb as [b k IH] using callback_induction.
  intros w cb' w'. cbn [init_callback]. intros H.
  apply bind_Ok in H as ([k' w1] & H & H1). injection H1 as <- <-.
  assert (Hb : bound_to m w (bind_model b m w) k') by (repeat split).
  assert (Hmono : forall w w1 c, extends w w1 ->
            every_hook (bound_to m w1) c -> every_hook (bound_to m w) c)
    by (intros; eapply bound_to_extends; eassumption).
  destruct k as [cs|F p pre|g|c f|thr|c n l|o s]; simpl in H.
  - apply bind_Ok in H as ([cs' w2] & H & H1). injection H1 as <- <-.
    apply (for_each_spec _ (fun w c => every_hook (bound_to m w) c)
             (every_hook has_child) cs Hmono) in H as (He & Hq & Hi); [|exact IH].
    tree_done.
  - injection H as <- <-. tree_done.
  - injection H as <- <-. tree_done.
  - apply bind_Ok in H as ([c' w2] & H & H1). injection H1 as <- <-.
    eapply (on_child_spec _ (fun w c => every_hook (bound_to m w) c)
              (every_hook has_child)) in H as (c0 & c1 & -> & -> & He & Hq & Hi);
      [|exact IH].
    assert (He0 : extends w (makedirs_if_set os_path_dirname (log_path f)
                               (makedirs_if_set (fun p => p) (best_model_save_path f) w)))
      by auto with grows.
    pose proof (Hmono _ _ _ He0 Hq) as Hq0.
    pose proof (extends_trans _ _ _ He0 He) as He1.
    tree_done.
  - injection H as <- <-. tree_done.
  - apply bind_Ok in H as ([c' w2] & H & H1). injection H1 as <- <-.
    eapply (on_child_spec _ (fun w c => every_hook (bound_to m w) c)
              (every_hook has_child)) in H as (c0 & c1 & -> & -> & He & Hq & Hi);
      [|exact IH].
    tree_done.
  - apply bind_Ok in H as ([s' es] & _ & H). injection H as <- <-. tree_done.
Qed.

Lemma holds_dicts_mono (l g : dict_ref) (w w1 : world) (c : callback) :
  extends w w1 -> every_hook (holds_dicts l g) c -> every_hook (holds_dicts l g) c.
Proof. auto. Qed.

(** X2. When [on_training_start] returns, the callback and every callback
    below it hold the two dictionaries it was given, and every
    [EventCallback] of the tree has a child. *)
Theorem on_training_start_shares_dicts (l g : dict_ref) (cb cb' : callback)
    (w w' : world) :
  on_training_start cb l g w = Ok (cb', w') ->
  extends w w' /\ every_hook (holds_dicts l g) cb' /\ every_hook has_child cb.
Proof.
  revert w cb' w'. induction cb as [b k IH] using callback_induction.
  intros w cb' w'. cbn [on_training_start]. intros H.
  apply bind_Ok in H as ([k' w1] & H & H1). injection H1 as <- <-.
  assert (Hb : holds_dicts l g (bind_locals b l g) k') by (split; reflexivity).
  destruct k as [cs|F p pre|f0|c f|thr|c n last|o s]; simpl in H.
  - apply bind_Ok in H as ([cs' w2] & H & H1). injection H1 as <- <-.
    apply (for_each_spec _ (fun _ c => every_hook (holds_dicts l g) c)
             (every_hook has_child) cs (holds_dicts_mono l g)) in H
      as (He & Hq & Hi); [|exact IH].
    tree_done.
  - injection H as <- <-. tree_done.
  - injection H as <- <-. tree_done.
  - apply bind_Ok in H as ([c' w2] & H & H1). injection H1 as <- <-.
    eapply (on_child_spec _ (fun _ c => every_hook (holds_dicts l g) c)
              (every_hook has_child)) in H as (c0 & c1 & -> & -> & He & Hq & Hi);
      [|exact IH].
    tree_done.
  - injection H as <- <-. tree_done.
  - apply bind_Ok in H as ([c' w2] & H & H1). injection H1 as <- <-.
    eapply (on_child_spec _ (fun _ c => every_hook (holds_dicts l g) c)
              (every_hook has_child)) in H as (c0 & c1 & -> & -> & He & Hq & Hi);
      [|exact IH].
    tree_done.
  - apply bind_Ok in H as ([s' es] & _ & H). injection H as <- <-. tree_done.
Qed.


Lemma for_each_unchanged (f : callback -> world -> result (callback * world))
    (cs : list callback) :
  Forall (fun c => forall w, f c w = Ok (c, w)) cs ->
  forall w, for_each f cs w = Ok (cs, w).
Proof.
  induction 1 as [|c cs Hc _ IH]; intros w; simpl.
  - reflexivity.
  - rewrite Hc. simpl. rewrite IH. reflexivity.
Qed.

(** The property of the children, from the property of the tree. *)
Lemma children_hyps (P : callback -> Prop) (Q R : BaseCallback -> kind callback -> Prop)
    (b : BaseCallback) (k : kind callback) :
  Forall (fun c => every_hook Q c -> every_hook R c -> P c) (children k) ->
  every_hook Q (Hook b k) ->
  every_hook R (Hook b k) ->
  Forall P (children k).
Proof.
  intros IH HQ HR.
  apply every_hook_inv in HQ as (_ & HQ). apply every_hook_inv in HR as (_ & HR).
  rewrite Forall_forall in *. auto.
Qed.


(** X4. On a tree of callbacks of the classes of this file,
    [on_training_end], [on_rollout_start] and [on_rollout_end] change no
    callback and issue no request. *)
Theorem lifecycle_ends_do_nothing (cb : callback) :
  every_hook not_user cb ->
  forall w,
    on_training_end cb w = Ok (cb, w) /\
    on_rollout_start cb w = Ok (cb, w) /\
    on_rollout_end cb w = Ok (cb, w).
Proof.
  induction cb as [b k IH] using callback_induction.
  intros Hu w.
  assert (IH1 : Forall (fun c => forall w, on_training_end c w = Ok (c, w)) (children k)).
  { apply (children_hyps _ not_user not_user b k); [|assumption|assumption].
    revert IH. apply Forall_impl. intros c H H1 _ w0. exact (proj1 (H H1 w0)). }
  apply every_hook_inv in Hu as (Hu & _).
  cbn [on_training_end].
  destruct k as [cs|F p pre|f0|c f|thr|c n last|o s]; simpl in Hu, IH1;
    try contradiction; try (repeat split; reflexivity).
  cbn [dispatch_on_training_end].
  rewrite (for_each_unchanged on_training_end cs IH1 w). repeat split; reflexivity.
Qed.

End Trees.

(** ** More on EvalCallback *)

Section Evaluation.

Context {E : Collaborators}.

Lemma SFltb_not_nan (x y : float) :
  SFltb x y = true -> is_nan x = false /\ is_nan y = false.
Proof.
  unfold SFltb. destruct x, y; simpl; try discriminate; auto.
Qed.

Lemma SFltb_leb (x y : float) : SFltb x y = true -> SFleb x y = true.
Proof.
  unfold SFltb, SFleb. destruct (SFcompare x y) as [[| |]|]; congruence.
Qed.

Lemma SFleb_refl (x : float) : is_nan x = false -> SFleb x x = true.
Proof.
  intros Hx. pose proof (SFltb_irrefl x) as Hlt. unfold SFltb in Hlt. unfold SFleb.
  destruct (SFcompare x x) as [c|] eqn:Hc.
  - pose proof (SFcompare_antisym _ _ _ Hc) as Ha. rewrite Hc in Ha.
    destruct c; simpl in *; congruence.
  - destruct x as [s|s| |s m e]; try destruct s; simpl in *; discriminate.
Qed.

(** X5. An [EvalCallback] calls its child, and can ask to stop, only at a
    call that finds a new best mean: if the child has changed or the call
    returns [False], an evaluation ran whose mean was above the best mean,
    and is the best mean now. *)
Theorem EvalCallback_child_only_on_new_best (pv : parent_view) (b b' : BaseCallback)
    (c c' : option callback) (f f' : EvalFields) (w w' : world) (r : bool) :
  call pv (Hook b (EvalCallback c f)) w = Ok (Hook b' (EvalCallback c' f'), w', r) ->
  c' <> c \/ r = false ->
  exists rs,
    evaluates (Hook b (EvalCallback c f)) w rs /\
    SFltb (best_mean_reward f) (np_mean rs) = true /\
    best_mean_reward f' = np_mean rs.
Proof.
  intros H Hch.
  apply EvalCallback_call_inv in H
    as (b1 & c1 & f1 & Heq &
        [(_ & _ & Hc & _ & Hr)|[(rs & _ & _ & _ & Hc & Hr & _)|(rs & Hev & Hlt & Hb)]]);
    injection Heq as -> -> ->.
  - destruct Hch as [Hch|Hch]; [contradiction|congruence].
  - destruct Hch as [Hch|Hch]; [contradiction|congruence].
  - exists rs. auto.
Qed.

(** X6. An [EvalCallback] whose child is a [StopTrainingOnRewardThreshold],
    both bound to a model: an evaluation whose mean is above the best mean
    makes the call return whether that mean is below the threshold, and
    the call returns [False] only after such an evaluation whose mean is
    not below the threshold. *)
Theorem EvalCallback_stops_at_threshold (pv : parent_view) (b bc : BaseCallback)
    (f : EvalFields) (reward_threshold : float) (m mc : model_ref) (w : world) :
  model b = Some m ->
  model bc = Some mc ->
  let cb := Hook b (EvalCallback
                      (Some (Hook bc (StopTrainingOnRewardThreshold reward_threshold))) f) in
  (forall rs,
     evaluates cb w rs ->
     SFltb (best_mean_reward f) (np_mean rs) = true ->
     exists cb' w',
       call pv cb w = Ok (cb', w', SFltb (np_mean rs) reward_threshold) /\
       best_of cb' = Some (np_mean rs)) /\
  (forall cb' w',
     call pv cb w = Ok (cb', w', false) ->
     exists rs,
       evaluates cb w rs /\
       SFltb (best_mean_reward f) (np_mean rs) = true /\
       SFltb (np_mean rs) reward_threshold = false).
Proof.
  intros Hm Hmc cb.
  assert (Hfwd : forall rs,
     evaluates cb w rs ->
     SFltb (best_mean_reward f) (np_mean rs) = true ->
     exists cb' w',
       call pv cb w = Ok (cb', w', SFltb (np_mean rs) reward_threshold) /\
       best_of cb' = Some (np_mean rs)).
  { intros rs (Hf & Hdue & Hev) Hlt. unfold cb.
    rewrite call_unfold. unfold tick. rewrite Hm. simpl.
    unfold EvalCallback_on_step, py_mod. simpl.
    destruct (Z.eqb_spec (eval_freq f) 0) as [|_]; [contradiction|]. simpl.
    rewrite Hdue. simpl. rewrite Hm in Hev. rewrite Hev. simpl.
    destruct (log_path f); simpl; rewrite Hlt;
      destruct (best_model_save_path f); simpl;
      unfold tick; rewrite Hmc; simpl; eauto. }
  split; [exact Hfwd|].
  intros cb' w' H.
  pose proof H as H0.
  apply EvalCallback_call_inv in H0
    as (b1 & c1 & f1 & Heq &
        [(_ & _ & _ & _ & Hr)|[(rs & _ & _ & _ & _ & Hr & _)|(rs & Hev & Hlt & Hb)]]);
    try discriminate.
  exists rs. repeat split; try assumption.
  - destruct Hev as (H1 & _). exact H1.
  - destruct Hev as (_ & H1 & _). exact H1.
  - destruct Hev as (_ & _ & H1). exact H1.
  - destruct (Hfwd rs Hev Hlt) as (cb2 & w2 & Hc & _).
    rewrite Hc in H. injection H as _ _ Hr. exact Hr.
Qed.

(** X7. The best mean of an [EvalCallback] is never NaN: from a best mean
    that is not NaN, minus infinity at the start, any number of calls
    leaves a best mean that is not NaN and is [>=] the former. *)
Theorem EvalCallback_best_never_nan (pv : parent_view) (cb cb' : callback) (x : float) :
  best_of cb = Some x ->
  is_nan x = false ->
  later pv cb cb' ->
  exists y, best_of cb' = Some y /\ is_nan y = false /\ SFleb x y = true.
Proof.
  intros Hx Hn Hl.
  destruct (later_best_of _ _ _ Hl x Hx) as (y & Hy & [->|Hlt]).
  - exists x. auto using SFleb_refl.
  - exists y. split; [exact Hy|]. split.
    + exact (proj2 (SFltb_not_nan _ _ Hlt)).
    + exact (SFltb_leb _ _ Hlt).
Qed.

Lemma extends_In (e : event) (w w' : world) :
  extends w w' -> In e (trace w) -> In e (trace w').
Proof. intros (es & ->) H. simpl. apply in_or_app. auto. Qed.

Lemma emit_In (e : event) (w : world) : In e (trace (emit e w)).
Proof. simpl. apply in_or_app. right. left. reflexivity. Qed.

(** What a call of an [EvalCallback] that returns has done to the log. *)
Lemma EvalCallback_call_log (pv : parent_view) (b : BaseCallback) (c : option callback)
    (f : EvalFields) (w w' : world) (cb' : callback) (r : bool) :
  call pv (Hook b (EvalCallback c f)) w = Ok (cb', w', r) ->
  exists b' c' f' m,
    cb' = Hook b' (EvalCallback c' f') /\ model b = Some m /\
    log_path f' = log_path f /\
    ((evaluations_timesteps f' = evaluations_timesteps f /\
      evaluations_results f' = evaluations_results f /\
      ((forall rs, ~ evaluates (Hook b (EvalCallback c f)) w rs) \/ log_path f = None)) \/
     (exists rs p,
        evaluates (Hook b (EvalCallback c f)) w rs /\ log_path f = Some p /\
        evaluations_timesteps f'
          = evaluations_timesteps f ++ [num_timesteps_of w m + 1] /\
        evaluations_results f' = evaluations_results f ++ [rs] /\
        In (Savez p (evaluations_timesteps f') (evaluations_results f')) (trace w'))).
Proof.
  rewrite call_unfold. unfold tick.
  destruct (model b) as [m|] eqn:Hm; [|discriminate].
  simpl. unfold EvalCallback_on_step, py_mod. simpl.
  destruct (eval_freq f =? 0) eqn:Hf; [discriminate|].
  apply Z.eqb_neq in Hf. simpl.
  destruct ((n_calls b + 1) mod eval_freq f =? 0) eqn:Hdue.
  2:{ simpl. intros H. injection H as <- <- <-.
      eexists; exists c, f, m. repeat split. left. repeat split. left.
      apply Z.eqb_neq in Hdue. intros rs (_ & H0 & _). contradiction. }
  apply Z.eqb_eq in Hdue.
  destruct (evaluate_policy
              (emit (SyncEnvsNormalization (training_env b) (eval_env f)) w)
              (model b) (eval_env f) (n_eval_episodes f) (deterministic f))
    as [rs|e] eqn:Hev; rewrite Hm in Hev; rewrite Hev; [|discriminate].
  assert (Hevs : evaluates (Hook b (EvalCallback c f)) w rs)
    by (simpl; rewrite Hm; auto).
  simpl.
  destruct (log_path f) as [p|] eqn:Hlog; simpl.
  - set (f1 := append_evaluation f (num_timesteps_of w m + 1) rs).
    set (w3 := emit (Savez p _ _) _).
    assert (Hin : In (Savez p (evaluations_timesteps f1) (evaluations_results f1))
                     (trace w3)) by apply emit_In.
    destruct (SFltb (best_mean_reward f) (np_mean rs)) eqn:Hlt.
    + intros H.
      apply bind_Ok in H as ([[k' w1] r1] & H & H1). injection H1 as <- <- <-.
      apply bind_Ok in H as ([[[c' f'] w2] r2] & H & H1). injection H1 as <- <- <-.
      apply bind_Ok in H as (w6 & H6 & H).
      assert (He6 : extends w3 w6).
      { destruct (best_model_save_path f) in H6; simpl in H6;
          injection H6 as <-; auto using extends_refl, extends_emit, extends_emit_if. }
      assert (He : extends w6 w2 /\ f' = set_best_mean_reward f1 (np_mean rs)).
      { destruct c as [c0|].
        - apply bind_Ok in H as ([[c1 w7] r7] & H7 & H). injection H as _ <- <- _.
          apply bind_Ok in H7 as ([[c2 w8] r8] & H8 & H7). injection H7 as _ <- _.
          apply call_extends in H8 as (He8 & _). auto.
        - injection H as _ <- <- _. auto using extends_refl. }
      destruct He as (He & ->).
      eexists; exists c', (set_best_mean_reward f1 (np_mean rs)), m.
      repeat split; [exact Hlog|]. right.
      exists rs, p. repeat split; auto.
      apply (extends_In _ w3); [|exact Hin]. exact (extends_trans _ _ _ He6 He).
    + simpl. intros H. injection H as <- <- <-.
      eexists; exists c, f1, m. repeat split; [exact Hlog|]. right.
      exists rs, p. repeat split; auto.
      apply (extends_In _ w3); [|exact Hin].
      auto using extends_refl, extends_emit_if.
  - destruct (SFltb (best_mean_reward f) (np_mean rs)) eqn:Hlt.
    + intros H.
      apply bind_Ok in H as ([[k' w1] r1] & H & H1). injection H1 as <- <- <-.
      apply bind_Ok in H as ([[[c' f'] w2] r2] & H & H1). injection H1 as <- <- <-.
      apply bind_Ok in H as (w6 & _ & H).
      assert (He : f' = set_best_mean_reward f (np_mean rs)).
      { destruct c as [c0|].
        - apply bind_Ok in H as ([[c1 w7] r7] & _ & H). injection H as _ <- _ _.
          reflexivity.
        - injection H as _ <- _ _. reflexivity. }
      subst f'.
      eexists; exists c', (set_best_mean_reward f (np_mean rs)), m.
      repeat split; [exact Hlog|]. left. repeat split. right. reflexivity.
    + simpl. intros H. injection H as <- <- <-.
      eexists; exists c, f, m. repeat split; [exact Hlog|]. left.
      repeat split. right. reflexivity.
Qed.

Lemma log_of_Some (cb : callback) (ts : list Z) (rs : list (list float)) :
  log_of cb = Some (ts, rs) ->
  exists b c f, cb = Hook b (EvalCallback c f) /\
                evaluations_timesteps f = ts /\ evaluations_results f = rs.
Proof.
  destruct cb as [b k]. unfold log_of. simpl.
  destruct k; try discriminate. intros H. injection H as <- <-. eauto 6.
Qed.

(** X8. The two logged sequences of an [EvalCallback] only grow, and by
    as many elements each: after any number of calls they are the former
    ones followed by equally many new timesteps and results. *)
Theorem EvalCallback_log_grows (pv : parent_view) (cb cb' : callback) :
  later pv cb cb' ->
  forall ts rs,
    log_of cb = Some (ts, rs) ->
    exists ts2 rs2,
      log_of cb' = Some (ts ++ ts2, rs ++ rs2) /\ List.length ts2 = List.length rs2.
Proof.
  induction 1 as [cb|cb cb1 cb' w w1 r Hc _ IH]; intros ts rs Hlog.
  - exists [], []. rewrite !app_nil_r. auto.
  - apply log_of_Some in Hlog as (b & c & f & -> & <- & <-).
    apply EvalCallback_call_log in Hc
      as (b' & c' & f' & m & -> & _ & _ &
          [(Hts & Hrs & _)|(rs1 & p & _ & _ & Hts & Hrs & _)]).
    + destruct (IH _ _ eq_refl) as (ts2 & rs2 & Hl & Hlen).
      exists ts2, rs2. cbn [kind_of] in Hl. rewrite Hts, Hrs in Hl. auto.
    + destruct (IH _ _ eq_refl) as (ts2 & rs2 & Hl & Hlen).
      eexists (_ :: ts2), (_ :: rs2). cbn [kind_of] in Hl.
      rewrite Hts, Hrs, <- !app_assoc in Hl. split; [exact Hl|].
      simpl. rewrite Hlen. reflexivity.
Qed.

(** X9. An evaluation of an [EvalCallback] that has a [log_path] appends
    the timestep of the call and the episode rewards to the log and writes
    the whole log, the new entry included, to that path. *)
Theorem EvalCallback_writes_whole_log (pv : parent_view) (b b' : BaseCallback)
    (c c' : option callback) (f f' : EvalFields) (w w' : world) (r : bool)
    (rs : list float) (p : string) (m : model_ref) :
  call pv (Hook b (EvalCallback c f)) w = Ok (Hook b' (EvalCallback c' f'), w', r) ->
  evaluates (Hook b (EvalCallback c f)) w rs ->
  log_path f = Some p ->
  model b = Some m ->
  evaluations_timesteps f' = evaluations_timesteps f ++ [num_timesteps_of w m + 1] /\
  evaluations_results f' = evaluations_results f ++ [rs] /\
  In (Savez p (evaluations_timesteps f') (evaluations_results f')) (trace w').
Proof.
  intros H Hev Hlog Hm.
  apply EvalCallback_call_log in H
    as (b1 & c1 & f1 & m1 & Heq & Hm1 & _ &
        [(_ & _ & [Hno|Hnone])|(rs1 & p1 & Hev1 & Hp1 & Hts & Hrs & Hin)]);
    injection Heq as -> -> ->.
  - destruct (Hno rs Hev).
  - congruence.
  - destruct Hev as (_ & _ & Hrs0). destruct Hev1 as (_ & _ & Hrs1).
    rewrite Hrs0 in Hrs1. injection Hrs1 as <-.
    rewrite Hlog in Hp1. injection Hp1 as <-.
    rewrite Hm in Hm1. injection Hm1 as <-. auto.
Qed.

End Evaluation.

(** ** More on the other callbacks *)

Section Composition.

Context {E : Collaborators}.

(** X10. A [CheckpointCallback] built with no [save_path] passes
    [init_callback] without creating a directory, returns [True] at the
    calls that are not due, and raises [TypeError] at the first call whose
    number is a multiple of [save_freq]. *)
Theorem CheckpointCallback_without_save_path (pv : parent_view) (b0 b : BaseCallback)
    (F : Z) (name_prefix : string) (m : model_ref) (w : world) :
  F <> 0 ->
  model b = Some m ->
  init_callback (Hook b0 (CheckpointCallback F None name_prefix)) m w
    = Ok (Hook (bind_model b0 m w) (CheckpointCallback F None name_prefix), w) /\
  ((n_calls b + 1) mod F = 0 ->
   call pv (Hook b (CheckpointCallback F None name_prefix)) w = Raise TypeError) /\
  ((n_calls b + 1) mod F <> 0 ->
   exists b',
     call pv (Hook b (CheckpointCallback F None name_prefix)) w
       = Ok (Hook b' (CheckpointCallback F None name_prefix), w, true) /\
     n_calls b' = n_calls b + 1).
Proof.
  intros HF Hm. split; [reflexivity|].
  split; intros Hdue; rewrite call_unfold; unfold tick; rewrite Hm; simpl;
    unfold CheckpointCallback_on_step, py_mod; simpl;
    destruct (Z.eqb_spec F 0) as [|_]; try contradiction; simpl.
  - rewrite Hdue. reflexivity.
  - destruct (Z.eqb_spec ((n_calls b + 1) mod F) 0) as [|_]; [contradiction|].
    simpl. eexists. split; reflexivity.
Qed.

(** X11. A bound [CheckpointCallback] with a directory and a frequency
    other than zero, negative ones included, saves at a call exactly when
    the frequency divides the number of the call. *)
Theorem CheckpointCallback_saves_when_divides (pv : parent_view) (b : BaseCallback)
    (F : Z) (dir name_prefix : string) (m : model_ref) (w : world) :
  F <> 0 ->
  model b = Some m ->
  exists b' es,
    call pv (Hook b (CheckpointCallback F (Some dir) name_prefix)) w
      = Ok (Hook b' (CheckpointCallback F (Some dir) name_prefix), emit_all es w, true) /\
    ((F | n_calls b + 1) ->
     filter is_save es
       = [Save m (checkpoint_path dir name_prefix (num_timesteps_of w m + 1))]) /\
    (~ (F | n_calls b + 1) -> filter is_save es = []).
Proof.
  intros HF Hm.
  destruct (CheckpointCallback_call pv b F dir name_prefix m w HF Hm)
    as (b' & es & Hc & _ & _ & Hs).
  exists b', es. split; [exact Hc|].
  rewrite Hs. split; intros Hd.
  - apply (Z.mod_divide _ _ HF) in Hd. rewrite Hd. reflexivity.
  - destruct (Z.eqb_spec ((n_calls b + 1) mod F) 0) as [H0|_]; [|reflexivity].
    apply (Z.mod_divide _ _ HF) in H0. contradiction.
Qed.

(** X12. A call of an [EveryNTimesteps] that returns either triggers,
    which moves [last_time_trigger] to [num_timesteps], or changes
    nothing and returns [True]; [n_steps] stays, and when it is positive
    the trigger is less than [n_steps] behind [num_timesteps] after the
    call. *)
Theorem EveryNTimesteps_trigger_follows (pv : parent_view) (b b' : BaseCallback)
    (c c' : option callback) (n n' last last' : Z) (w w' : world) (r : bool) :
  call pv (Hook b (EveryNTimesteps c n last)) w
    = Ok (Hook b' (EveryNTimesteps c' n' last'), w', r) ->
  n' = n /\
  ((last' = num_timesteps b' /\ num_timesteps b' - last >= n) \/
   (last' = last /\ c' = c /\ w' = w /\ r = true /\ num_timesteps b' - last < n)) /\
  (0 < n -> num_timesteps b' - last' < n).
Proof.
  rewrite call_unfold. unfold tick.
  destruct (model b) as [m|]; [|discriminate]. simpl.
  unfold EveryNTimesteps_on_step. simpl.
  destruct (Z.geb_spec (num_timesteps_of w m + 1 - last) n) as [Hge|Hlt]; simpl.
  - intros H.
    apply bind_Ok in H as ([[k' w1] r1] & H & H1).
    apply bind_Ok in H as ([[[c1 l1] w2] r2] & H & H2).
    injection H2 as ? ? ?. subst k' w1 r1.
    injection H1 as ? ? ? ? ? ?. subst b' c' n' last' w' r.
    apply bind_Ok in H as ([[c2 w3] r3] & _ & H). injection H as _ <- _ _.
    simpl. repeat split; [left; split|]; lia.
  - intros H. injection H as ? ? ? ? ? ?. subst b' c' n' last' w' r. simpl.
    repeat split; [right; repeat split|]; lia.
Qed.

(** X13. A [StopTrainingOnRewardThreshold] wrapped in an
    [EveryNTimesteps], both bound to a model: its parent is not [None] and
    has no [best_mean_reward], so the call that triggers raises
    [AttributeError]; the calls that do not trigger return [True]. *)
Theorem StopTrainingOnRewardThreshold_under_EveryNTimesteps (pv : parent_view)
    (b bc : BaseCallback) (reward_threshold : float) (n last : Z) (m mc : model_ref)
    (w : world) :
  model b = Some m ->
  model bc = Some mc ->
  let cb := Hook b (EveryNTimesteps
                      (Some (Hook bc (StopTrainingOnRewardThreshold reward_threshold)))
                      n last) in
  (n <= num_timesteps_of w m + 1 - last -> call pv cb w = Raise AttributeError) /\
  (num_timesteps_of w m + 1 - last < n ->
   exists b', call pv cb w = Ok (Hook b' (kind_of cb), w, true)).
Proof.
  intros Hm Hmc cb. unfold cb.
  split; intros Hn; rewrite call_unfold; unfold tick; rewrite Hm; simpl;
    unfold EveryNTimesteps_on_step; simpl;
    destruct (Z.geb_spec (num_timesteps_of w m + 1 - last) n); try lia; simpl.
  - unfold tick. rewrite Hmc. reflexivity.
  - eexists. reflexivity.
Qed.

(** X14. A run that returns has made one call per element of [ts]: the
    callback has counted them, there is one result per call, the callback
    is still bound to the same model, and the final callback is [later]
    than the first. *)
Theorem run_counts (pv : parent_view) (ts : list Z) :
  forall (cb cb' : callback) (w w' : world) (rs : list bool),
    run pv cb w ts = Ok (cb', w', rs) ->
    n_calls (base_of cb') = n_calls (base_of cb) + Z.of_nat (List.length ts) /\
    List.length rs = List.length ts /\
    model (base_of cb') = model (base_of cb) /\
    later pv cb cb'.
Proof.
  induction ts as [|t ts IH]; intros cb cb' w w' rs; simpl; intros H.
  - injection H as <- <- <-. rewrite Z.add_0_r. repeat split. constructor.
  - apply bind_Ok in H as ([[cb1 w1] r1] & Hc & H).
    apply bind_Ok in H as ([[cb2 w2] rs2] & Hr & H). injection H as <- <- <-.
    apply IH in Hr as (Hn & Hl & Hm & Hlater).
    pose proof (call_counts _ _ _ _ _ _ Hc) as Hn1.
    pose proof (proj2 (call_extends _ _ _ _ _ _ Hc)) as Hm1.
    repeat split.
    + lia.
    + simpl. rewrite Hl. reflexivity.
    + congruence.
    + econstructor; eassumption.
Qed.

(** X15. When a child of a [CallbackList] raises, after the children
    before it have returned, [_on_step] of the list raises the same
    exception. *)
Theorem CallbackList_child_raises (pv : parent_view) (b : BaseCallback)
    (cs1 cs1' cs2 : list callback) (rs : list bool) (c : callback) (w w1 : world)
    (e : exn) :
  fires w cs1 cs1' rs w1 ->
  call NoParent c w1 = Raise e ->
  _on_step pv (Hook b (CallbackList (cs1 ++ c :: cs2))) w = Raise e.
Proof.
  intros Hf Hc. simpl. unfold CallbackList_on_step.
  assert (H : forall acc, fire_all call (cs1 ++ c :: cs2) w acc = Raise e).
  { induction Hf as [w|w w1 w2 c0 c0' r cs cs' rs Hc0 _ IH]; intros acc; simpl.
    - rewrite Hc. reflexivity.
    - rewrite Hc0. simpl. rewrite (IH Hc). reflexivity. }
  rewrite H. reflexivity.
Qed.

Lemma call_timestep (pv : parent_view) (cb cb' : callback) (w w' : world) (r : bool) :
  call pv cb w = Ok (cb', w', r) ->
  exists m, model (base_of cb) = Some m /\
            num_timesteps (base_of cb') = num_timesteps_of w m + 1.
Proof.
  destruct cb as [b k]. rewrite call_unfold. intros H.
  apply bind_Ok in H as (b' & Ht & H).
  apply bind_Ok in H as ([[k' w1] r1] & _ & H).
  injection H as <- _ _. simpl.
  apply tick_Ok in Ht as (m & Hm & _ & Hn). eauto.
Qed.

Lemma fires_in_step (m : model_ref) (n : Z) (w0 : world) (w w' : world)
    (cs cs' : list callback) (rs : list bool) :
  fires w cs cs' rs w' ->
  extends w0 w ->
  Forall (fun c => model (base_of c) = Some m /\ n_calls (base_of c) = n) cs ->
  Forall (fun c' => model (base_of c') = Some m /\
                    n_calls (base_of c') = n + 1 /\
                    num_timesteps (base_of c') = num_timesteps_of w0 m + 1) cs'.
Proof.
  induction 1 as [w|w w1 w2 c c' r cs cs' rs Hc _ IH]; intros He Hall.
  - constructor.
  - apply Forall_cons_iff in Hall as ((Hm & Hn) & Hall).
    pose proof (call_counts _ _ _ _ _ _ Hc) as Hn1.
    pose proof (call_extends _ _ _ _ _ _ Hc) as (He1 & Hm1).
    destruct (call_timestep _ _ _ _ _ _ Hc) as (m1 & Hm2 & Ht).
    rewrite Hm in Hm2. injection Hm2 as <-.
    constructor.
    + repeat split; [congruence|lia|].
      rewrite Ht. apply extends_trainer in He as (-> & _). reflexivity.
    + apply IH; [exact (extends_trans _ _ _ He He1)|exact Hall].
Qed.

(** X16. A [CallbackList] and its children bound to one model and with
    one [n_calls]: after a call of the list that returns, the children
    are bound to that model and have the [n_calls] and the
    [num_timesteps] of the list. *)
Theorem CallbackList_children_in_step (pv : parent_view) (b : BaseCallback)
    (cs : list callback) (m : model_ref) (cb' : callback) (w w' : world) (r : bool) :
  model b = Some m ->
  Forall (fun c => model (base_of c) = Some m /\ n_calls (base_of c) = n_calls b) cs ->
  call pv (Hook b (CallbackList cs)) w = Ok (cb', w', r) ->
  exists cs',
    kind_of cb' = CallbackList cs' /\
    model (base_of cb') = Some m /\
    Forall (fun c' => model (base_of c') = Some m /\
                      n_calls (base_of c') = n_calls (base_of cb') /\
                      num_timesteps (base_of c') = num_timesteps (base_of cb')) cs'.
Proof.
  intros Hm Hall H. rewrite call_unfold in H. unfold tick in H. rewrite Hm in H.
  simpl in H. unfold CallbackList_on_step in H.
  apply bind_Ok in H as ([[k' w1] r1] & H & H1). injection H1 as <- <- <-.
  apply bind_Ok in H as ([[cs' w2] r2] & H & H1). injection H1 as <- <- <-.
  apply fire_all_inv in H as (rs & Hf & _).
  exists cs'. simpl. repeat split.
  exact (fires_in_step m (n_calls b) w w _ cs cs' rs Hf (extends_refl w) Hall).
Qed.

(** X17. A bound [ConvertCallback], after [on_training_start], calls the
    wrapped function on the two dictionaries it was given: the call
    returns what the function returns and issues its requests, raises what
    it raises, and returns [True] when there is no function. *)
Theorem ConvertCallback_calls_function (pv : parent_view) (b : BaseCallback)
    (f : option functional_callback) (l g : dict_ref) (m : model_ref) (w0 w : world) :
  model b = Some m ->
  exists cb1,
    on_training_start (Hook b (ConvertCallback f)) l g w0 = Ok (cb1, w0) /\
    match f with
    | Some fn =>
        (forall r es,
           fn w (Some l) (Some g) = Ok (r, es) ->
           exists cb2, call pv cb1 w = Ok (cb2, emit_all es w, r)) /\
        (forall e, fn w (Some l) (Some g) = Raise e -> call pv cb1 w = Raise e)
    | None => exists cb2, call pv cb1 w = Ok (cb2, w, true)
    end.
Proof.
  intros Hm. eexists. split; [reflexivity|].
  destruct f as [fn|].
  - split.
    + intros r es Hf. rewrite call_unfold. unfold tick. simpl. rewrite Hm. simpl.
      rewrite Hf. simpl. eexists. reflexivity.
    + intros e Hf. rewrite call_unfold. unfold tick. simpl. rewrite Hm. simpl.
      rewrite Hf. reflexivity.
  - rewrite call_unfold. unfold tick. simpl. rewrite Hm. simpl.
    eexists. reflexivity.
Qed.

End Composition.

(** ** The rest of the code on concrete objects *)

Section MoreInstances.

#[local] Existing Instance demo.

Lemma init_callback_binds_tree_witness :
  exists cb' w',
    init_callback demo_tree 0%nat demo_world = Ok (cb', w') /\
    extends demo_world w' /\
    every_hook (bound_to 0%nat demo_world) cb' /\
    every_hook has_child demo_tree.
Proof.
  eexists. eexists. split; [reflexivity|].
  exact (init_callback_binds_tree 0%nat demo_tree _ demo_world _ eq_refl).
Defined.

Lemma on_training_start_shares_dicts_witness :
  exists cb' w',
    on_training_start demo_tree 4%nat 5%nat demo_world = Ok (cb', w') /\
    extends demo_world w' /\
    every_hook (holds_dicts 4%nat 5%nat) cb' /\
    every_hook has_child demo_tree.
Proof.
  eexists. eexists. split; [reflexivity|].
  exact (on_training_start_shares_dicts 4%nat 5%nat demo_tree _ demo_world _ eq_refl).
Defined.


Lemma plain_tree_not_user : every_hook not_user plain_tree.
Proof. repeat constructor. Qed.


Lemma lifecycle_ends_do_nothing_witness :
  every_hook not_user plain_tree /\
  on_training_end plain_tree demo_world = Ok (plain_tree, demo_world) /\
  on_rollout_start plain_tree demo_world = Ok (plain_tree, demo_world) /\
  on_rollout_end plain_tree demo_world = Ok (plain_tree, demo_world).
Proof.
  split; [exact plain_tree_not_user|].
  exact (lifecycle_ends_do_nothing plain_tree plain_tree_not_user demo_world).
Defined.

Lemma guarded_evaluates :
  evaluates (guarded 0 0 neg_inf (threshold 0 0)) demo_world [one].
Proof. repeat split. discriminate. Qed.

Lemma EvalCallback_child_only_on_new_best_witness :
  exists w',
    call NoParent (guarded 0 0 neg_inf (threshold 0 0)) demo_world
      = Ok (guarded 1 1 one (threshold 1 1), w', false) /\
    exists rs,
      evaluates (guarded 0 0 neg_inf (threshold 0 0)) demo_world rs /\
      SFltb neg_inf (np_mean rs) = true /\
      one = np_mean rs.
Proof.
  eexists. split; [reflexivity|].
  exact (EvalCallback_child_only_on_new_best NoParent (bound 0 0) (bound 1 1)
           (Some (threshold 0 0)) (Some (threshold 1 1))
           (every_call neg_inf None [] []) (every_call one None [] [])
           demo_world _ false eq_refl (or_intror eq_refl)).
Defined.

Lemma EvalCallback_stops_at_threshold_witness :
  evaluates (guarded 0 0 neg_inf (threshold 0 0)) demo_world [one] /\
  exists cb' w',
    call NoParent (guarded 0 0 neg_inf (threshold 0 0)) demo_world = Ok (cb', w', false) /\
    best_of cb' = Some one.
Proof.
  split; [exact guarded_evaluates|].
  exact (proj1 (EvalCallback_stops_at_threshold NoParent (bound 0 0) (bound 0 0)
                  (every_call neg_inf None [] []) one 0%nat 0%nat demo_world
                  eq_refl eq_refl)
               [one] guarded_evaluates eq_refl).
Defined.

Lemma evaluator_later :
  later NoParent (evaluator 0 0 neg_inf) (evaluator 1 1 one).
Proof. eapply (later_call _ _ _ _ demo_world); [reflexivity|apply later_refl]. Qed.

Lemma EvalCallback_best_never_nan_witness :
  is_nan neg_inf = false /\
  later NoParent (evaluator 0 0 neg_inf) (evaluator 1 1 one) /\
  exists y,
    best_of (evaluator 1 1 one) = Some y /\ is_nan y = false /\ SFleb neg_inf y = true.
Proof.
  split; [reflexivity|]. split; [exact evaluator_later|].
  exact (EvalCallback_best_never_nan NoParent (evaluator 0 0 neg_inf)
           (evaluator 1 1 one) neg_inf eq_refl eq_refl evaluator_later).
Defined.

Lemma recorder_later :
  later NoParent (recorder 0 0 neg_inf [] []) (recorder 1 1 one [[one]] [1]).
Proof. eapply (later_call _ _ _ _ demo_world); [reflexivity|apply later_refl]. Qed.

Lemma EvalCallback_log_grows_witness :
  later NoParent (recorder 0 0 neg_inf [] []) (recorder 1 1 one [[one]] [1]) /\
  exists ts2 rs2,
    log_of (recorder 1 1 one [[one]] [1]) = Some ([] ++ ts2, [] ++ rs2) /\
    List.length ts2 = List.length rs2.
Proof.
  split; [exact recorder_later|].
  exact (EvalCallback_log_grows NoParent (recorder 0 0 neg_inf [] [])
           (recorder 1 1 one [[one]] [1]) recorder_later [] [] eq_refl).
Defined.

Lemma recorder_evaluates : evaluates (recorder 0 0 neg_inf [] []) demo_world [one].
Proof. repeat split. discriminate. Qed.

Lemma EvalCallback_writes_whole_log_witness :
  exists w',
    call NoParent (recorder 0 0 neg_inf [] []) demo_world
      = Ok (recorder 1 1 one [[one]] [1], w', true) /\
    In (Savez "evals.npz" [1] [[one]]) (trace w').
Proof.
  eexists. split; [reflexivity|].
  exact (proj2 (proj2 (EvalCallback_writes_whole_log NoParent (bound 0 0) (bound 1 1)
                         None None
                         (every_call neg_inf (Some "evals.npz"%string) [] [])
                         (every_call one (Some "evals.npz"%string) [[one]] [1])
                         demo_world _ true [one] "evals.npz"%string 0%nat
                         eq_refl recorder_evaluates eq_refl eq_refl))).
Defined.

Lemma two_not_zero : 2 <> 0.
Proof. discriminate. Qed.

Lemma minus_two_not_zero : -2 <> 0.
Proof. discriminate. Qed.

Lemma CheckpointCallback_without_save_path_witness :
  2 <> 0 /\
  call NoParent (Hook (bound 1 1) (CheckpointCallback 2 None "rl_model")) demo_world
    = Raise TypeError.
Proof.
  split; [exact two_not_zero|].
  exact (proj1 (proj2 (CheckpointCallback_without_save_path NoParent (bound 0 0)
                         (bound 1 1) 2 "rl_model" 0%nat demo_world
                         two_not_zero eq_refl))
               eq_refl).
Defined.

Lemma CheckpointCallback_saves_when_divides_witness :
  (-2 | 1 + 1) /\
  exists b' es,
    call NoParent (Hook (bound 1 1) (CheckpointCallback (-2) (Some "logs"%string)
                                       "rl_model"%string)) demo_world
      = Ok (Hook b' (CheckpointCallback (-2) (Some "logs"%string) "rl_model"%string),
            emit_all es demo_world, true) /\
    filter is_save es = [Save 0%nat (checkpoint_path "logs" "rl_model" 1)].
Proof.
  assert (Hd : (-2 | 1 + 1)) by (exists (-1); reflexivity).
  split; [exact Hd|].
  destruct (CheckpointCallback_saves_when_divides NoParent (bound 1 1) (-2)
              "logs" "rl_model" 0%nat demo_world minus_two_not_zero eq_refl)
    as (b' & es & Hc & Hs & _).
  exists b', es. exact (conj Hc (Hs Hd)).
Defined.

Lemma EveryNTimesteps_trigger_follows_witness :
  call NoParent (every 3) (train_to 2 demo_world)
    = Ok (Hook (bound 1 3) (EveryNTimesteps (Some (stepper 1 3 1)) 3 3),
          emit (UserEvent "_on_step") (train_to 2 demo_world), true) /\
  (0 < 3 -> num_timesteps (bound 1 3) - 3 < 3).
Proof.
  split; [reflexivity|].
  exact (proj2 (proj2 (EveryNTimesteps_trigger_follows NoParent (bound 0 0) (bound 1 3)
                         (Some (stepper 0 0 0)) (Some (stepper 1 3 1)) 3 3 0 3
                         (train_to 2 demo_world)
                         (emit (UserEvent "_on_step") (train_to 2 demo_world)) true
                         eq_refl))).
Defined.

Lemma StopTrainingOnRewardThreshold_under_EveryNTimesteps_witness :
  1 <= num_timesteps_of demo_world 0%nat + 1 - 0 /\
  call NoParent (Hook (bound 0 0) (EveryNTimesteps (Some (threshold 0 0)) 1 0)) demo_world
    = Raise AttributeError.
Proof.
  assert (H : 1 <= num_timesteps_of demo_world 0%nat + 1 - 0) by discriminate.
  split; [exact H|].
  exact (proj1 (StopTrainingOnRewardThreshold_under_EveryNTimesteps NoParent
                  (bound 0 0) (bound 0 0) one 1 0 0%nat 0%nat demo_world
                  eq_refl eq_refl) H).
Defined.

Lemma run_counts_witness :
  exists cb' w' rs,
    run NoParent (checkpoint 2) demo_world [0; 1; 2] = Ok (cb', w', rs) /\
    n_calls (base_of cb') = n_calls (base_of (checkpoint 2)) + 3 /\
    List.length rs = 3%nat /\
    model (base_of cb') = model (base_of (checkpoint 2)) /\
    later NoParent (checkpoint 2) cb'.
Proof.
  eexists. eexists. eexists. split; [reflexivity|].
  exact (run_counts NoParent [0; 1; 2] (checkpoint 2) _ demo_world _ _ eq_refl).
Defined.

Lemma refuse_fires : fires demo_world [refuse 0] [refuse 1] [false] demo_world.
Proof. eapply fires_cons; [reflexivity|apply fires_nil]. Qed.

Lemma CallbackList_child_raises_witness :
  fires demo_world [refuse 0] [refuse 1] [false] demo_world /\
  call NoParent (threshold 0 0) demo_world = Raise AssertionError /\
  _on_step NoParent
    (Hook (bound 1 1) (CallbackList ([refuse 0] ++ threshold 0 0 :: [stepper 0 0 0])))
    demo_world
    = Raise AssertionError.
Proof.
  split; [exact refuse_fires|]. split; [reflexivity|].
  exact (CallbackList_child_raises NoParent (bound 1 1) [refuse 0] [refuse 1]
           [stepper 0 0 0] [false] (threshold 0 0) demo_world demo_world AssertionError
           refuse_fires eq_refl).
Defined.

Lemma in_step_at_start :
  Forall (fun c => model (base_of c) = Some 0%nat /\
                   n_calls (base_of c) = n_calls (bound 0 0))
         [refuse 0; stepper 0 0 0].
Proof. repeat constructor. Qed.

Lemma CallbackList_children_in_step_witness :
  exists cb' w' r,
    call NoParent (Hook (bound 0 0) (CallbackList [refuse 0; stepper 0 0 0])) demo_world
      = Ok (cb', w', r) /\
    exists cs',
      kind_of cb' = CallbackList cs' /\
      model (base_of cb') = Some 0%nat /\
      Forall (fun c' => model (base_of c') = Some 0%nat /\
                        n_calls (base_of c') = n_calls (base_of cb') /\
                        num_timesteps (base_of c') = num_timesteps (base_of cb')) cs'.
Proof.
  eexists. eexists. eexists. split; [reflexivity|].
  exact (CallbackList_children_in_step NoParent (bound 0 0) [refuse 0; stepper 0 0 0]
           0%nat _ demo_world _ _ eq_refl in_step_at_start eq_refl).
Defined.

Lemma ConvertCallback_calls_function_witness :
  model (bound 0 0) = Some 0%nat /\
  exists cb1,
    on_training_start (Hook (bound 0 0) (ConvertCallback (Some old_style)))
                      4%nat 5%nat demo_world = Ok (cb1, demo_world) /\
    exists cb2,
      call NoParent cb1 demo_world = Ok (cb2, emit_all [UserEvent "old"] demo_world, true).
Proof.
  split; [reflexivity|].
  destruct (ConvertCallback_calls_function NoParent (bound 0 0) (Some old_style)
              4%nat 5%nat 0%nat demo_world demo_world eq_refl)
    as (cb1 & H1 & H2 & _).
  exists cb1. split; [exact H1|]. exact (H2 true [UserEvent "old"] eq_refl).
Defined.

End MoreInstances.
